(** * Student roster manager: a shallow embedding of
      [c_c++/projects/student_management.cpp]

    The development follows the source file top-down: the pieces of the C++
    standard library the program calls ([std::string::find], [substr],
    [std::stoi], [std::stod], [std::to_string], [std::remove], [find_if],
    [getline]), then class [Student], then class [StudentManager], and
    finally the properties: those of the roster core first, then those of
    search, course management, display, reports and persistence.

    Conventions.
    - [std::string] is a [list ascii] (written [str]); [lit "abc"] is the
      literal.
    - [size_t] is a 64-bit unsigned integer: a [Z] in [0, 2^64) with the
      wrap-around written out ([+!], [-!]); [npos] is [2^64 - 1].
    - [int] is a [Z]; the library functions that produce one check the
      32-bit range, the predicate [int_range] states it.
    - [double] is IEEE-754 binary64, as the inductive [spec_float] of the
      Standard Library with [prec = 53] and [emax = 1024].
    - A C++ exception is the [Throw] outcome of [result]; member functions
      that assign to the fields of [*this] run in the state-and-exception
      monad [M] over the object. *)

From Stdlib Require Import ZArith Bool Ascii String List Lia.
From Stdlib Require Import Decimal DecimalString DecimalPos DecimalN.
From Stdlib Require Import SpecFloat.
From stdpp Require Import base tactics option list strings gmap.

Local Open Scope Z_scope.

(** ** Strings and [size_t] *)

Abbreviation str := (list ascii).

Definition lit (s : string) : str := list_ascii_of_string s.

Definition len (s : str) : Z := Z.of_nat (length s).

Definition size_modulus : Z := 2 ^ 64.

Definition npos : Z := size_modulus - 1.

Definition wrap (z : Z) : Z := z mod size_modulus.

Definition sz_add (a b : Z) : Z := wrap (a + b).
Definition sz_sub (a b : Z) : Z := wrap (a - b).

Infix "+!" := sz_add (at level 50, left associativity).
Infix "-!" := sz_sub (at level 50, left associativity).

(** The standard exceptions the program can meet. *)
Inductive exn : Set :=
| invalid_argument
| out_of_range.

(** Outcome of a call: a value, a thrown exception, or a loop of the model
    that used up its iteration budget ([Diverge]; the theorems below show
    that the budgets the model passes are never used up). *)
Inductive result (A : Type) : Type :=
| Ok (a : A)
| Throw (e : exn)
| Diverge.

Arguments Ok {A} a.
Arguments Throw {A} e.
Arguments Diverge {A}.

Definition is_throw {A} (r : result A) : bool :=
  match r with Throw _ => true | _ => false end.

(** [s.find(c, pos)]: index of the first [c] at or after [pos], else [npos]. *)
Fixpoint find_char_from (c : ascii) (s : str) (i : Z) : Z :=
  match s with
  | [] => npos
  | x :: s' => if Ascii.eqb x c then i else find_char_from c s' (i + 1)
  end.

Definition find_char (s : str) (c : ascii) (pos : Z) : Z :=
  if pos <? len s then find_char_from c (drop (Z.to_nat pos) s) pos else npos.

(** [is_prefix p s]: [s] starts with [p] (the comparison [find] makes at
    each candidate position). *)
Fixpoint is_prefix (p s : str) : bool :=
  match p, s with
  | [], _ => true
  | _ :: _, [] => false
  | a :: p', b :: s' => Ascii.eqb a b && is_prefix p' s'
  end.

(** [s.find(pat, pos)]: index of the first occurrence of [pat] that starts
    at or after [pos], else [npos]. The empty pattern occurs at every
    position up to and including [s.size()]. *)
Fixpoint find_str_from (pat s : str) (i : Z) : Z :=
  if is_prefix pat s then i
  else match s with
       | [] => npos
       | _ :: s' => find_str_from pat s' (i + 1)
       end.

Definition find_str (s pat : str) (pos : Z) : Z :=
  if pos <=? len s then find_str_from pat (drop (Z.to_nat pos) s) pos else npos.

(** [s.substr(pos, n)]: throws [out_of_range] when [pos > size()], else the
    [min(n, size() - pos)] characters from [pos]. *)
Definition substr (s : str) (pos n : Z) : result str :=
  if len s <? pos then Throw out_of_range
  else Ok (take (Z.to_nat (Z.min n (len s - pos))) (drop (Z.to_nat pos) s)).

(** ** Numeric conversions of the C++ standard library

    [std::stoi] and [std::stod] are [strtol] (base 10) and [strtod]: leading
    white space is skipped, an optional sign is read, then the longest
    prefix that is a number; what follows the number is ignored. They throw
    [invalid_argument] when no number starts there and [out_of_range] when
    the value does not fit. [std::to_string] is [sprintf] with ["%d"] and
    ["%f"]. *)

Definition code (c : ascii) : Z := Z.of_nat (nat_of_ascii c).

Definition isspace (c : ascii) : bool :=
  (code c =? 32) || ((9 <=? code c) && (code c <=? 13)).

Definition isdigit (c : ascii) : bool := (48 <=? code c) && (code c <=? 57).

Definition digit_val (c : ascii) : Z := code c - 48.

Definition isxdigit (c : ascii) : bool :=
  isdigit c || ((65 <=? code c) && (code c <=? 70))
            || ((97 <=? code c) && (code c <=? 102)).

Definition xdigit_val (c : ascii) : Z :=
  if isdigit c then code c - 48
  else if code c <=? 70 then code c - 55 else code c - 87.

Definition tolower (c : ascii) : ascii :=
  if (65 <=? code c) && (code c <=? 90)
  then ascii_of_nat (nat_of_ascii c + 32) else c.

Fixpoint skip_space (s : str) : str :=
  match s with
  | c :: s' => if isspace c then skip_space s' else s
  | [] => []
  end.

Definition read_sign (s : str) : bool * str :=
  match s with
  | c :: s' =>
      if Ascii.eqb c "-" then (true, s')
      else if Ascii.eqb c "+" then (false, s')
      else (false, s)
  | [] => (false, [])
  end.

Definition starts_with_digit (s : str) : bool :=
  match s with c :: _ => isdigit c | [] => false end.

(** Value of the longest prefix of decimal digits, on top of [acc]. *)
Fixpoint digits_value (s : str) (acc : Z) : Z :=
  match s with
  | c :: s' => if isdigit c then digits_value s' (10 * acc + digit_val c) else acc
  | [] => acc
  end.

Definition INT_MIN : Z := - 2 ^ 31.
Definition INT_MAX : Z := 2 ^ 31 - 1.

Definition int_range (z : Z) : Prop := INT_MIN <= z <= INT_MAX.

Definition in_int_range (z : Z) : bool := (INT_MIN <=? z) && (z <=? INT_MAX).

Definition apply_sign (neg : bool) (v : Z) : Z := if neg then - v else v.

(** [std::stoi(s)] *)
Definition stoi (s : str) : result Z :=
  let '(neg, t) := read_sign (skip_space s) in
  if starts_with_digit t then
    let z := apply_sign neg (digits_value t 0) in
    if in_int_range z then Ok z else Throw out_of_range
  else Throw invalid_argument.

(** Decimal digits of a natural number, most significant first. *)
Definition to_string_nat (n : Z) : str :=
  lit (NilZero.string_of_uint (N.to_uint (Z.to_N n))).

(** [std::to_string(int)] *)
Definition to_string_int (z : Z) : str :=
  if z <? 0 then "-"%char :: to_string_nat (- z) else to_string_nat z.

(** ** [double] *)

Abbreviation double := spec_float.

Definition prec : Z := 53.
Definition emax : Z := 1024.

(** A well-formed binary64 value. *)
Definition is_double (x : double) : Prop := valid_binary prec emax x = true.

(** The comparisons of C++ on doubles; both are false on a NaN. *)
Definition double_le (x y : double) : bool := SFleb x y.
Definition double_ge (x y : double) : bool := SFleb y x.

(** [num / den] rounded to the nearest integer, ties to the even one. *)
Definition round_half_even (num den : Z) : Z :=
  let q := num / den in
  match 2 * (num mod den) ?= den with
  | Lt => q
  | Gt => q + 1
  | Eq => if Z.even q then q else q + 1
  end.

(** [m * 2^e * 10^6] rounded to an integer: the value ["%f"] prints, in
    millionths. *)
Definition millionths (m : positive) (e : Z) : Z :=
  if 0 <=? e then Z.pos m * 2 ^ e * 10 ^ 6
  else round_half_even (Z.pos m * 10 ^ 6) (2 ^ (- e)).

Definition digit_char (d : Z) : ascii := ascii_of_nat (Z.to_nat (48 + d)).

Definition six_digits (n : Z) : str :=
  map (fun p => digit_char (n / p mod 10)) [100000; 10000; 1000; 100; 10; 1].

Definition sign_str (neg : bool) : str := if neg then lit "-" else [].

Definition fixed6 (neg : bool) (n : Z) : str :=
  sign_str neg ++ to_string_nat (n / 10 ^ 6) ++ lit "." ++ six_digits (n mod 10 ^ 6).

(** [std::to_string(double)], that is ["%f"]: six digits after the point,
    the exact binary value rounded to nearest-even. ([spec_float] keeps no
    sign for a NaN, so a NaN always prints as ["nan"].) *)
Definition to_string_double (x : double) : str :=
  match x with
  | S754_zero s => fixed6 s 0
  | S754_infinity s => sign_str s ++ lit "inf"
  | S754_nan => lit "nan"
  | S754_finite s m e => fixed6 s (millionths m e)
  end.

(** The double nearest to [num / den] (ties to even), signed by [neg]. *)
Definition nearest_double (neg : bool) (num den : Z) : double :=
  match num, den with
  | Z.pos n, Z.pos d =>
      SFdiv prec emax (S754_finite neg n 0) (S754_finite false d 0)
  | _, _ => S754_zero neg
  end.

(** [x] is exactly [num / den] in absolute value. *)
Definition exactly (x : double) (num den : Z) : bool :=
  match x with
  | S754_finite _ m e =>
      if 0 <=? e then Z.pos m * 2 ^ e * den =? num
      else Z.pos m * den =? num * 2 ^ (- e)
  | S754_zero _ => num =? 0
  | _ => false
  end.

Definition is_subnormal (x : double) : bool :=
  match x with
  | S754_finite _ m _ => Z.pos (digits2_pos m) <? prec
  | _ => false
  end.

(** What [strtod] reports through [errno = ERANGE], hence [std::stod]
    through [out_of_range]: overflow to an infinity, or a result that is
    tiny (zero or subnormal) and inexact. *)
Definition checked_double (neg : bool) (num den : Z) : result double :=
  let x := nearest_double neg num den in
  match x with
  | S754_infinity _ => Throw out_of_range
  | S754_zero _ => if num =? 0 then Ok x else Throw out_of_range
  | _ => if is_subnormal x && negb (exactly x num den)
         then Throw out_of_range else Ok x
  end.

(** Longest prefix of digits: value on top of [acc], how many, and the rest. *)
Fixpoint read_digits (s : str) (acc cnt : Z) : Z * Z * str :=
  match s with
  | c :: s' =>
      if isdigit c then read_digits s' (10 * acc + digit_val c) (cnt + 1)
      else (acc, cnt, s)
  | [] => (acc, cnt, [])
  end.

Fixpoint read_xdigits (s : str) (acc cnt : Z) : Z * Z * str :=
  match s with
  | c :: s' =>
      if isxdigit c then read_xdigits s' (16 * acc + xdigit_val c) (cnt + 1)
      else (acc, cnt, s)
  | [] => (acc, cnt, [])
  end.

(** Digits, an optional point, digits; at least one digit in all. Gives the
    digits read as one integer, the number of them after the point and the
    rest of the text. *)
Definition read_mantissa (rd : str -> Z -> Z -> Z * Z * str) (s : str)
  : option (Z * Z * str) :=
  let '(n1, c1, r1) := rd s 0 0 in
  match r1 with
  | c :: r2 =>
      if Ascii.eqb c "." then
        let '(n2, c2, r3) := rd r2 n1 0 in
        if c1 + c2 =? 0 then None else Some (n2, c2, r3)
      else if c1 =? 0 then None else Some (n1, 0, r1)
  | [] => if c1 =? 0 then None else Some (n1, 0, [])
  end.

(** An exponent part: the letter [mark] in either case, an optional sign,
    at least one digit; [0] when there is none. *)
Definition read_exponent (mark : ascii) (s : str) : Z :=
  match s with
  | c :: s1 =>
      if Ascii.eqb (tolower c) mark then
        let '(neg, s2) := read_sign s1 in
        if starts_with_digit s2 then apply_sign neg (digits_value s2 0) else 0
      else 0
  | [] => 0
  end.

Definition starts_with_ci (p s : str) : bool :=
  is_prefix p (map tolower (take (length p) s)).

(** A hexadecimal mantissa after ["0x"], if there is one. *)
Definition read_hex (s : str) : option (Z * Z * str) :=
  if starts_with_ci (lit "0x") s then read_mantissa read_xdigits (drop 2 s)
  else None.

Definition scaled_decimal (neg : bool) (n scale : Z) : result double :=
  if 0 <=? scale then checked_double neg (n * 10 ^ scale) 1
  else checked_double neg n (10 ^ (- scale)).

Definition scaled_binary (neg : bool) (n scale : Z) : result double :=
  if 0 <=? scale then checked_double neg (n * 2 ^ scale) 1
  else checked_double neg n (2 ^ (- scale)).

(** [std::stod(s)] *)
Definition stod (s : str) : result double :=
  let '(neg, t) := read_sign (skip_space s) in
  if starts_with_ci (lit "inf") t then Ok (S754_infinity neg)
  else if starts_with_ci (lit "nan") t then Ok S754_nan
  else
    match read_hex t with
    | Some (n, k, r) => scaled_binary neg n (read_exponent "p" r - 4 * k)
    | None =>
        match read_mantissa read_digits t with
        | Some (n, k, r) => scaled_decimal neg n (read_exponent "e" r - k)
        | None => Throw invalid_argument
        end
    end.

(** The floating-point literals of the program, each the double nearest to
    the decimal written in the source. *)
Definition d0_0 : double := S754_zero false.
Definition d1_0 : double := S754_finite false 4503599627370496 (-52).
Definition d2_0 : double := S754_finite false 4503599627370496 (-51).
Definition d3_0 : double := S754_finite false 6755399441055744 (-51).
Definition d3_5 : double := S754_finite false 7881299347898368 (-51).
Definition d3_7 : double := S754_finite false 8331659310635418 (-51).
Definition d4_0 : double := S754_finite false 4503599627370496 (-50).

(** ** State and exceptions

    A member function that assigns to fields of its object and may throw is
    a function from the object to an outcome and the object as the call
    left it (assignments made before a [throw] stay made). *)

Definition M (St A : Type) : Type := St -> result A * St.

Definition ret {St A} (a : A) : M St A := fun s => (Ok a, s).

Definition bind {St A B} (m : M St A) (k : A -> M St B) : M St B :=
  fun s =>
    match m s with
    | (Ok a, s') => k a s'
    | (Throw e, s') => (Throw e, s')
    | (Diverge, s') => (Diverge, s')
    end.

Definition lift {St A} (r : result A) : M St A := fun s => (r, s).

Definition modify {St} (f : St -> St) : M St unit := fun s => (Ok tt, f s).

Definition get {St} : M St St := fun s => (Ok s, s).

Notation "x <- m ;; k" := (bind m (fun x => k))
  (at level 100, m at next level, right associativity).
Notation "m ;;; k" := (bind m (fun _ => k))
  (at level 100, right associativity).

(** ** class Student

    The fields of the record bear the names of their getters ([id] and
    the like stay free for other uses). *)

Record Student : Type := mkStudent {
  getId : Z;
  getName : str;
  getAge : Z;
  getGpa : double;
  getCourses : list str
}.

(** [Student()] *)
Definition Student_default : Student := mkStudent 0 [] 0 d0_0 [].

(** [Student(id, name, age, gpa)]: no check on any argument. *)
Definition Student_new (id : Z) (name : str) (age : Z) (gpa : double) : Student :=
  mkStudent id name age gpa [].

Definition setId (newId : Z) (s : Student) : Student :=
  mkStudent newId (getName s) (getAge s) (getGpa s) (getCourses s).

Definition setName (newName : str) (s : Student) : Student :=
  mkStudent (getId s) newName (getAge s) (getGpa s) (getCourses s).

Definition setAge (newAge : Z) (s : Student) : Student :=
  mkStudent (getId s) (getName s) newAge (getGpa s) (getCourses s).

(** The plain assignments [gpa = ...] and [courses = ...] of the class. *)
Definition assignGpa (g : double) (s : Student) : Student :=
  mkStudent (getId s) (getName s) (getAge s) g (getCourses s).

Definition assignCourses (cs : list str) (s : Student) : Student :=
  mkStudent (getId s) (getName s) (getAge s) (getGpa s) cs.

Definition setGpa (newGpa : double) (s : Student) : Student :=
  if double_ge newGpa d0_0 && double_le newGpa d4_0
  then assignGpa newGpa s
  else s.

Definition addCourse (course : str) (s : Student) : Student :=
  assignCourses (getCourses s ++ [course]) s.

(** [std::find(first, last, value)] over a whole vector, as an index;
    [length v] stands for [last]. [k] counts the elements still to visit. *)
Fixpoint find_loop (v : list str) (value : str) (k i : nat) : nat :=
  match k with
  | O => i
  | S k' =>
      match v !! i with
      | Some y => if decide (y = value) then i else find_loop v value k' (S i)
      | None => i
      end
  end.

Definition std_find (v : list str) (value : str) : nat :=
  find_loop v value (length v) 0.

(** The loop of [std::remove]: every element from [first] on that differs
    from [value] is assigned to slot [result], which then advances. *)
Fixpoint remove_loop (value : str) (k first result : nat) (v : list str)
  : nat * list str :=
  match k with
  | O => (result, v)
  | S k' =>
      match v !! first with
      | Some y =>
          if decide (y = value) then remove_loop value k' (S first) result v
          else remove_loop value k' (S first) (S result) (<[result := y]> v)
      | None => (result, v)
      end
  end.

(** [std::remove(v.begin(), v.end(), value)]: the new logical end and the
    vector after the shifts. (The slots from the new end on hold moved-from
    strings in C++; the caller erases them, the model leaves them as they
    were.) *)
Definition std_remove (v : list str) (value : str) : nat * list str :=
  let first := std_find v value in
  if decide (first = length v) then (first, v)
  else remove_loop value (length v - S first) (S first) first v.

(** [v.erase(first, last)] *)
Definition erase_range (v : list str) (first last : nat) : list str :=
  take first v ++ drop last v.

Definition removeCourse (course : str) (s : Student) : Student :=
  let '(new_end, v) := std_remove (getCourses s) course in
  assignCourses (erase_range v new_end (length v)) s.

Definition isHonorStudent (s : Student) : bool := double_ge (getGpa s) d3_5.

Definition getGradeLevel (s : Student) : str :=
  if double_ge (getGpa s) d3_7 then lit "A"
  else if double_ge (getGpa s) d3_0 then lit "B"
  else if double_ge (getGpa s) d2_0 then lit "C"
  else if double_ge (getGpa s) d1_0 then lit "D"
  else lit "F".

(** Size of a vector as a [size_t]. *)
Definition vsize {A} (v : list A) : Z := Z.of_nat (length v).

(** The [for] loop of [toFileString]; [k] counts the iterations left. *)
Fixpoint courseList_loop (k : nat) (courses : list str) (i : Z) (courseList : str)
  : str :=
  match k with
  | O => courseList
  | S k' =>
      match courses !! Z.to_nat i with
      | Some c =>
          let courseList := courseList ++ c in
          let courseList :=
            if i <? vsize courses -! 1 then courseList ++ lit ";" else courseList in
          courseList_loop k' courses (i +! 1) courseList
      | None => courseList
      end
  end.

Definition toFileString (s : Student) : str :=
  let courseList := courseList_loop (length (getCourses s)) (getCourses s) 0 [] in
  to_string_int (getId s) ++ lit "," ++ getName s ++ lit "," ++
  to_string_int (getAge s) ++ lit "," ++
  to_string_double (getGpa s) ++ lit "," ++ courseList.

(** The [while] loop of [fromFileString]. It gives back the final [start].
    [fuel] bounds the number of tests of the loop condition. *)
Fixpoint courses_loop (fuel : nat) (courseList : str) (start end_ : Z)
  : M Student Z :=
  match fuel with
  | O => lift Diverge
  | S fuel' =>
      if end_ =? npos then ret start
      else
        c <- lift (substr courseList start (end_ -! start)) ;;
        modify (addCourse c) ;;;
        let start := end_ +! 1 in
        courses_loop fuel' courseList start (find_char courseList ";" start)
  end.

Definition fromFileString (line : str) : M Student unit :=
  let pos1 := find_char line "," 0 in
  let pos2 := find_char line "," (pos1 +! 1) in
  let pos3 := find_char line "," (pos2 +! 1) in
  let pos4 := find_char line "," (pos3 +! 1) in
  t <- lift (substr line 0 pos1) ;;
  v <- lift (stoi t) ;;
  modify (setId v) ;;;
  t <- lift (substr line (pos1 +! 1) (pos2 -! pos1 -! 1)) ;;
  modify (setName t) ;;;
  t <- lift (substr line (pos2 +! 1) (pos3 -! pos2 -! 1)) ;;
  v <- lift (stoi t) ;;
  modify (setAge v) ;;;
  t <- lift (substr line (pos3 +! 1) (pos4 -! pos3 -! 1)) ;;
  v <- lift (stod t) ;;
  modify (assignGpa v) ;;;
  modify (assignCourses []) ;;;
  if negb (pos4 =? npos) && (pos4 +! 1 <? len line) then
    courseList <- lift (substr line (pos4 +! 1) npos) ;;
    start <- courses_loop (S (length courseList)) courseList 0
               (find_char courseList ";" 0) ;;
    if start <? len courseList then
      c <- lift (substr courseList start npos) ;;
      modify (addCourse c)
    else ret tt
  else ret tt.

(** ** class StudentManager *)

(** What the program writes to [cout]: text, or one call of
    [Student::displayFullInfo]. *)
Inductive event : Type :=
| Text (t : str)
| FullInfo (s : Student).

Definition endl : str := ["010"%char].

Record StudentManager : Type := mkManager {
  students : list Student;
  filename : str
}.

Definition setStudents (v : list Student) (m : StudentManager) : StudentManager :=
  mkManager v (filename m).

(** [students.push_back(s)] *)
Definition push_back (s : Student) (m : StudentManager) : StudentManager :=
  setStudents (students m ++ [s]) m.

(** The files of the machine: path to content. *)
Abbreviation FileSystem := (gmap (list ascii) (list ascii)).

(** [find_if(students.begin(), students.end(), [id](s) { s.getId() == id })]
    and the pointer made of it: the index and the element, or [None] for
    [end()] / [nullptr]. *)
Definition findStudentById (id : Z) (m : StudentManager) : option (nat * Student) :=
  list_find (fun s => getId s = id) (students m).

(** [addStudent], on the values read from [cin]. *)
Definition addStudent (id : Z) (name : str) (age : Z) (gpa : double)
    (m : StudentManager) : list event * StudentManager :=
  let out := [Text (endl ++ lit "=== Add New Student ===" ++ endl);
              Text (lit "Enter ID: ")] in
  match findStudentById id m with
  | Some _ =>
      (out ++ [Text (lit "Error: Student with ID " ++ to_string_int id ++
                     lit " already exists!" ++ endl)], m)
  | None =>
      (out ++ [Text (lit "Enter Name: "); Text (lit "Enter Age: ");
               Text (lit "Enter GPA (0.0-4.0): ");
               Text (lit "Student added successfully!" ++ endl)],
       push_back (Student_new id name age gpa) m)
  end.

Definition removeStudent (id : Z) (m : StudentManager)
  : list event * StudentManager :=
  let out := [Text (endl ++ lit "Enter student ID to remove: ")] in
  match findStudentById id m with
  | Some (it, s) =>
      (out ++ [Text (lit "Removing student: " ++ getName s ++ endl);
               Text (lit "Student removed successfully!" ++ endl)],
       setStudents (delete it (students m)) m)
  | None =>
      (out ++ [Text (lit "Student with ID " ++ to_string_int id ++
                     lit " not found!" ++ endl)], m)
  end.

(** The range-for of the search by name: one [displayFullInfo] per student
    whose name contains [name]; [found] is the flag of the source. *)
Fixpoint search_loop (name : str) (v : list Student) (found : bool)
  : list event * bool :=
  match v with
  | [] => ([], found)
  | student :: v' =>
      if negb (find_str (getName student) name 0 =? npos) then
        let '(out, found) := search_loop name v' true in
        (FullInfo student :: out, found)
      else search_loop name v' found
  end.

(** [searchStudent], on the values read from [cin]: the menu choice and the
    id or the name asked for. *)
Definition searchStudent (choice : Z) (id : Z) (name : str) (m : StudentManager)
  : list event :=
  let out := [Text (endl ++ lit "=== Search Student ===" ++ endl);
              Text (lit "1. Search by ID" ++ endl);
              Text (lit "2. Search by Name" ++ endl);
              Text (lit "Choose option: ")] in
  if choice =? 1 then
    out ++ Text (lit "Enter student ID: ") ::
    match findStudentById id m with
    | Some (_, student) => [FullInfo student]
    | None => [Text (lit "Student with ID " ++ to_string_int id ++
                     lit " not found!" ++ endl)]
    end
  else if choice =? 2 then
    let '(shown, found) := search_loop name (students m) false in
    out ++ Text (lit "Enter student name: ") :: shown ++
    (if negb found
     then [Text (lit "No students found with name containing '" ++ name ++
                 lit "'" ++ endl)]
     else [])
  else out.

(** [getline(file, line)] on what is left of the stream: the characters up
    to the next newline, which is consumed; it fails when nothing is left. *)
Fixpoint read_line (stream : str) : str * str :=
  match stream with
  | [] => ([], [])
  | c :: rest =>
      if Ascii.eqb c "010" then ([], rest)
      else let '(l, r) := read_line rest in (c :: l, r)
  end.

Definition getline (stream : str) : option (str * str) :=
  match stream with
  | [] => None
  | _ :: _ => Some (read_line stream)
  end.

(** The [while (getline(file, line))] loop of [loadFromFile]. An exception
    of [fromFileString] leaves the loop (and the function). *)
Fixpoint load_loop (fuel : nat) (stream : str) : M StudentManager unit :=
  match fuel with
  | O => lift Diverge
  | S fuel' =>
      match getline stream with
      | None => ret tt
      | Some (line, stream') =>
          (if negb (len line =? 0) then
             let '(r, student) := fromFileString line Student_default in
             lift r ;;; modify (push_back student)
           else ret tt) ;;;
          load_loop fuel' stream'
      end
  end.

(** [loadFromFile]: the value is what it writes to [cout]. A file that
    cannot be opened (here: that does not exist) skips the whole body. *)
Definition loadFromFile (fs : FileSystem) : M StudentManager (list event) :=
  fun m =>
    match fs !! filename m with
    | Some content =>
        (modify (setStudents []) ;;;
         load_loop (S (length content)) content ;;;
         m' <- get ;;
         ret [Text (lit "Loaded " ++ to_string_nat (vsize (students m')) ++
                    lit " students from " ++ filename m' ++ endl)]) m
    | None => (Ok [], m)
    end.

(** The constructor [StudentManager(file)]. *)
Definition StudentManager_new (fs : FileSystem) (file : str)
  : result (list event) * StudentManager :=
  loadFromFile fs (mkManager [] file).

(** ** Formatted output, reports, course management and saving

    The rest of the two classes. Text goes to [cout] through the stream
    manipulators of the source: [setw] (right-adjusted, filled with spaces)
    and [fixed << setprecision(p)] (the ["%.pf"] of [printf]). *)

(** [setw(w)] in front of a text or a number. *)
Definition setw (w : nat) (t : str) : str := repeat " "%char (w - length t) ++ t.

(** [m * 2^e * 10^p] rounded to an integer, ties to even. *)
Definition scaled (p : nat) (m : positive) (e : Z) : Z :=
  if 0 <=? e then Z.pos m * 2 ^ e * 10 ^ Z.of_nat p
  else round_half_even (Z.pos m * 10 ^ Z.of_nat p) (2 ^ (- e)).

(** The [p] decimals of [n / 10^p]. *)
Definition decimals (p : nat) (n : Z) : str :=
  map (fun i => digit_char (n / 10 ^ Z.of_nat i mod 10)) (rev (seq 0 p)).

Definition fixed_digits (p : nat) (neg : bool) (n : Z) : str :=
  sign_str neg ++ to_string_nat (n / 10 ^ Z.of_nat p) ++
  match p with
  | O => []
  | S _ => lit "." ++ decimals p (n mod 10 ^ Z.of_nat p)
  end.

(** [cout << fixed << setprecision(p) << x] *)
Definition fixed_text (p : nat) (x : double) : str :=
  match x with
  | S754_zero s => fixed_digits p s 0
  | S754_infinity s => sign_str s ++ lit "inf"
  | S754_nan => lit "nan"
  | S754_finite s m e => fixed_digits p s (scaled p m e)
  end.

Definition displayBasicInfo (s : Student) : str :=
  setw 5 (to_string_int (getId s)) ++ setw 20 (getName s) ++
  setw 5 (to_string_int (getAge s)) ++ setw 8 (fixed_text 2 (getGpa s)).

(** The [for] loop of [displayFullInfo]; [k] counts the iterations left. *)
Fixpoint display_courses_loop (k : nat) (courses : list str) (i : Z) (out : str)
  : str :=
  match k with
  | O => out
  | S k' =>
      match courses !! Z.to_nat i with
      | Some c =>
          let out := out ++ c in
          let out := if i <? vsize courses -! 1 then out ++ lit ", " else out in
          display_courses_loop k' courses (i +! 1) out
      | None => out
      end
  end.

Definition displayFullInfo (s : Student) : str :=
  endl ++ lit "=== Student Details ===" ++ endl ++
  lit "ID: " ++ to_string_int (getId s) ++ endl ++
  lit "Name: " ++ getName s ++ endl ++
  lit "Age: " ++ to_string_int (getAge s) ++ endl ++
  lit "GPA: " ++ fixed_text 2 (getGpa s) ++ endl ++
  lit "Courses: " ++
  (match getCourses s with
   | [] => lit "None"
   | _ :: _ =>
       display_courses_loop (length (getCourses s)) (getCourses s) 0 []
   end) ++ endl.

(** The characters a console trace puts on [cout]. *)
Definition render (out : list event) : str :=
  concat (map (fun e => match e with
                        | Text t => t
                        | FullInfo s => displayFullInfo s
                        end) out).

(** The range-for of [displayAllStudents]. *)
Fixpoint display_loop (v : list Student) : list event :=
  match v with
  | [] => []
  | student :: v' =>
      Text (displayBasicInfo student) ::
      Text (setw 8 (getGradeLevel student) ++ endl) :: display_loop v'
  end.

Definition displayAllStudents (m : StudentManager) : list event :=
  match students m with
  | [] => [Text (endl ++ lit "No students in the system." ++ endl)]
  | _ :: _ =>
      [Text (endl ++ lit "=== All Students ===" ++ endl);
       Text (setw 5 (lit "ID") ++ setw 20 (lit "Name") ++ setw 5 (lit "Age") ++
             setw 8 (lit "GPA") ++ setw 8 (lit "Grade") ++ endl);
       Text (repeat "-"%char 46 ++ endl)] ++
      display_loop (students m)
  end.

(** [manageCourses], on the values read from [cin]: the id, the menu choice
    and the course name. The pointer [findStudentById] gives points into
    the vector: the calls on it change the element in place. *)
Definition manageCourses (id : Z) (choice : Z) (course : str) (m : StudentManager)
  : list event * StudentManager :=
  let out := [Text (endl ++ lit "Enter student ID: ")] in
  match findStudentById id m with
  | None => (out ++ [Text (lit "Student not found!" ++ endl)], m)
  | Some (i, student) =>
      let out :=
        out ++ [Text (endl ++ lit "=== Course Management for " ++
                      getName student ++ lit " ===" ++ endl);
                Text (lit "1. Add Course" ++ endl);
                Text (lit "2. Remove Course" ++ endl);
                Text (lit "3. View Courses" ++ endl);
                Text (lit "Choose option: ")] in
      if choice =? 1 then
        (out ++ [Text (lit "Enter course name: ");
                 Text (lit "Course added successfully!" ++ endl)],
         setStudents (alter (addCourse course) i (students m)) m)
      else if choice =? 2 then
        (out ++ [Text (lit "Enter course name to remove: ");
                 Text (lit "Course removed successfully!" ++ endl)],
         setStudents (alter (removeCourse course) i (students m)) m)
      else if choice =? 3 then (out ++ [FullInfo student], m)
      else (out, m)
  end.

(** The first range-for of [generateReports]: one line per honor student;
    [hasHonorStudents] is the flag of the source. *)
Fixpoint honor_loop (v : list Student) (hasHonorStudents : bool)
  : list event * bool :=
  match v with
  | [] => ([], hasHonorStudents)
  | student :: v' =>
      if isHonorStudent student then
        let '(out, has) := honor_loop v' true in
        (Text (lit "- " ++ getName student ++ lit " (GPA: " ++
               fixed_text 2 (getGpa student) ++ lit ")" ++ endl) :: out, has)
      else honor_loop v' hasHonorStudents
  end.

(** The second range-for of [generateReports]: the sums. An [int] sum that
    leaves the range of [int] is undefined behaviour: [None]. *)
Fixpoint totals_loop (v : list Student) (totalGpa : double) (totalAge : Z)
  : option (double * Z) :=
  match v with
  | [] => Some (totalGpa, totalAge)
  | student :: v' =>
      let totalGpa := SFadd prec emax totalGpa (getGpa student) in
      let totalAge := totalAge + getAge student in
      if in_int_range totalAge then totals_loop v' totalGpa totalAge else None
  end.

(** The conversion of an integer to [double]. *)
Definition double_of_Z (z : Z) : double := binary_normalize prec emax z 0 false.

(** [generateReports]; [None] stands for undefined behaviour (overflow of
    [totalAge]). *)
Definition generateReports (m : StudentManager) : option (list event) :=
  match students m with
  | [] => Some [Text (endl ++ lit "No students to generate reports." ++ endl)]
  | _ :: _ =>
      let '(honor, hasHonorStudents) := honor_loop (students m) false in
      match totals_loop (students m) (double_of_Z 0) 0 with
      | None => None
      | Some (totalGpa, totalAge) =>
          let size := double_of_Z (vsize (students m)) in
          Some
            ([Text (endl ++ lit "=== Student Reports ===" ++ endl);
              Text (endl ++ lit "Honor Students (GPA >= 3.5):" ++ endl)] ++
             honor ++
             (if negb hasHonorStudents
              then [Text (lit "No honor students found." ++ endl)] else []) ++
             [Text (endl ++ lit "Class Statistics:" ++ endl);
              Text (lit "Total Students: " ++
                    to_string_nat (vsize (students m)) ++ endl);
              Text (lit "Average GPA: " ++
                    fixed_text 2 (SFdiv prec emax totalGpa size) ++ endl);
              Text (lit "Average Age: " ++
                    fixed_text 1 (SFdiv prec emax (double_of_Z totalAge) size) ++
                    endl)])
      end
  end.

(** The range-for of [saveToFile]: one line per student, each ended by
    [endl]. *)
Fixpoint save_loop (v : list Student) (file : str) : str :=
  match v with
  | [] => file
  | student :: v' => save_loop v' (file ++ toFileString student ++ endl)
  end.

(** [saveToFile]. [opens] tells whether the [ofstream] could be opened;
    opening truncates the file. *)
Definition saveToFile (opens : bool) (fs : FileSystem) (m : StudentManager)
  : list event * FileSystem :=
  if opens then
    ([Text (lit "Data saved to " ++ filename m ++ endl)],
     <[filename m := save_loop (students m) []]> fs)
  else ([Text (lit "Error: Could not save to file!" ++ endl)], fs).

(** The destructor [~StudentManager()]. *)
Definition StudentManager_delete (opens : bool) (fs : FileSystem)
    (m : StudentManager) : list event * FileSystem :=
  saveToFile opens fs m.

(** ** Definitions used to state the properties *)

(** [l] joined with [sep] between consecutive elements. *)
Fixpoint join (sep : str) (l : list str) : str :=
  match l with
  | [] => []
  | [x] => x
  | x :: l' => x ++ sep ++ join sep l'
  end.

(** The first four fields of the persisted line, comma-separated. *)
Definition header (s : Student) : str :=
  to_string_int (getId s) ++ lit "," ++ getName s ++ lit "," ++
  to_string_int (getAge s) ++ lit "," ++ to_string_double (getGpa s).

(** The line of a record as the specification words it: the course field
    and its comma are left out when there is no course. *)
Definition Serialize_spec (s : Student) : str :=
  match getCourses s with
  | [] => header s
  | cs => header s ++ lit "," ++ join (lit ";") cs
  end.

(** The successive lines [getline] gives on a stream. *)
Fixpoint lines (stream : str) : list str :=
  match stream with
  | [] => []
  | c :: rest =>
      if Ascii.eqb c "010" then [] :: lines rest
      else match lines rest with
           | [] => [[c]]
           | l :: ls => (c :: l) :: ls
           end
  end.




(** A line with at least four comma-separated fields: [f0], [f1], [f2] and
    [f3] hold no comma, and [tail] is empty or starts with the fourth
    comma. *)
Definition fields_line (f0 f1 f2 f3 tail : str) : str :=
  f0 ++ ","%char :: f1 ++ ","%char :: f2 ++ ","%char :: f3 ++ tail.


(** The last block of [fromFileString], which reads the course field. *)
Definition course_field (line : str) (pos4 : Z) : M Student unit :=
  if negb (pos4 =? npos) && (pos4 +! 1 <? len line) then
    courseList <- lift (substr line (pos4 +! 1) npos) ;;
    start <- courses_loop (S (length courseList)) courseList 0
               (find_char courseList ";" 0) ;;
    if start <? len courseList then
      c <- lift (substr courseList start npos) ;;
      modify (addCourse c)
    else ret tt
  else ret tt.

(** What [fromFileString] does once the four fields are cut out: convert
    and assign them in turn, empty the courses, then [k]. *)
Definition from_fields (f0 f1 f2 f3 : str) (k : M Student unit) : M Student unit :=
  v <- lift (stoi f0) ;;
  modify (setId v) ;;;
  modify (setName f1) ;;;
  v <- lift (stoi f2) ;;
  modify (setAge v) ;;;
  v <- lift (stod f3) ;;
  modify (assignGpa v) ;;;
  modify (assignCourses []) ;;;
  k.

(** [s'] differs from [s] in the courses at most. *)
Definition only_courses (s s' : Student) : Prop :=
  getId s' = getId s /\ getName s' = getName s /\
  getAge s' = getAge s /\ getGpa s' = getGpa s.

(** A record the program can hold: the integers are C++ [int]s, and the
    sizes of the course vector and of the persisted line are [size_t]s
    (below [npos], the largest size a string can have). *)
Definition representable (r : Student) : Prop :=
  int_range (getId r) /\ int_range (getAge r) /\
  vsize (getCourses r) < size_modulus /\
  len (toFileString r) < npos.

(** The six-decimal text of the gpa reads back as the same double. *)
Definition gpa_prints_exactly (r : Student) : Prop :=
  stod (to_string_double (getGpa r)) = Ok (getGpa r).

(** The records the non-empty lines of a stream stand for, when each of
    them is read without an exception. *)
Definition reads_as (content : str) (recs : list Student) : Prop :=
  Forall2 (fun line r => fromFileString line Student_default = (Ok tt, r))
    (filter (fun l => l ≠ []) (lines content)) recs.

(** Two doubles are the same value, bit for bit. *)
Definition double_same (x y : double) : bool :=
  match x, y with
  | S754_zero a, S754_zero b => Bool.eqb a b
  | S754_infinity a, S754_infinity b => Bool.eqb a b
  | S754_nan, S754_nan => true
  | S754_finite a m e, S754_finite b m' e' =>
      Bool.eqb a b && (Z.pos m =? Z.pos m') && (e =? e')
  | _, _ => false
  end.

(** The double nearest to [k / 100]: a gpa typed with two decimals. *)
Definition hundredths (k : Z) : double := nearest_double false k 100.

(** [g] is a well-formed double that its six-decimal text reads back to. *)
Definition reads_back (g : double) : bool :=
  valid_binary prec emax g &&
  match stod (to_string_double g) with
  | Ok g' => double_same g' g
  | _ => false
  end.

(** The characters of a decimal numeral. *)
Definition uint_chars (d : uint) : str := lit (NilEmpty.string_of_uint d).

(** The students a console trace displays, in order. *)
Definition shown (out : list event) : list Student :=
  omap (fun e => match e with FullInfo s => Some s | Text _ => None end) out.

(** The messages (text) of a console trace. *)
Definition messages (out : list event) : list str :=
  omap (fun e => match e with Text t => Some t | FullInfo _ => None end) out.

(** [m * 2^e <= b] and [b <= m * 2^e], on exact values, [b] an integer. *)
Definition finite_le_int (m : positive) (e b : Z) : Prop :=
  if 0 <=? e then Z.pos m * 2 ^ e <= b else Z.pos m <= b * 2 ^ (- e).

(** The real number a double stands for lies in [[0, 4]]. *)
Definition in_gpa_domain (v : double) : Prop :=
  match v with
  | S754_zero _ => True
  | S754_finite false m e => finite_le_int m e 4
  | _ => False
  end.

(** [pat] occurs somewhere in [s]. *)
Fixpoint is_infix (pat s : str) : bool :=
  is_prefix pat s ||
  match s with
  | [] => false
  | _ :: s' => is_infix pat s'
  end.

(** The grade letters, from worst to best. *)
Definition letter_rank (g : str) : nat :=
  if decide (g = lit "A") then 4
  else if decide (g = lit "B") then 3
  else if decide (g = lit "C") then 2
  else if decide (g = lit "D") then 1
  else 0.

(** A record that the flat file holds without loss: representable, no
    separator of the format (comma, semicolon in a course, end of line) in
    its texts, no empty last course, a gpa that its text reads back to. *)
Definition persistable (r : Student) : Prop :=
  representable r /\
  (","%char ∉ getName r) /\ ("010"%char ∉ getName r) /\
  Forall (fun c => (","%char ∉ c) /\ (";"%char ∉ c) /\ ("010"%char ∉ c))
    (getCourses r) /\
  last (getCourses r) ≠ Some [] /\
  gpa_prints_exactly r.

(** The text [saveToFile] writes for a roster. *)
Definition file_of (v : list Student) : str :=
  concat (map (fun s => toFileString s ++ endl) v).

(** One row of the table of [displayAllStudents], without its [endl]. *)
Definition table_row (s : Student) : str :=
  displayBasicInfo s ++ setw 8 (getGradeLevel s).

Definition table_header : str :=
  setw 5 (lit "ID") ++ setw 20 (lit "Name") ++ setw 5 (lit "Age") ++
  setw 8 (lit "GPA") ++ setw 8 (lit "Grade").

(** The four columns of a student are wide enough for its id, name, age
    and gpa. *)
Definition fits_columns (s : Student) : Prop :=
  (length (to_string_int (getId s)) <= 5)%nat /\
  (length (getName s) <= 20)%nat /\
  (length (to_string_int (getAge s)) <= 5)%nat /\
  (length (fixed_text 2 (getGpa s)) <= 8)%nat.

(** The line of the report for one honor student. *)
Definition honor_line (s : Student) : event :=
  Text (lit "- " ++ getName s ++ lit " (GPA: " ++ fixed_text 2 (getGpa s) ++
        lit ")" ++ endl).

(** The sum of the ages of a roster. *)
Definition sum_ages (v : list Student) : Z :=
  foldr (fun s acc => getAge s + acc) 0 v.

(** [c] occurs in the string [s]. *)
Fixpoint inb (c : ascii) (s : string) : bool :=
  match s with
  | EmptyString => false
  | String x s' => Ascii.eqb x c || inb c s'
  end.

(** The text of [k / 100] with two decimals, [k] not negative. *)
Definition two_decimals (k : Z) : str :=
  to_string_nat (k / 100) ++ lit "." ++
  [digit_char (k / 10 mod 10); digit_char (k mod 10)].

(** The gpa nearest to [k / 100] is displayed as the two decimals of [k]. *)
Definition shows_hundredths (k : Z) : bool :=
  bool_decide (fixed_text 2 (hundredths k) = two_decimals k).

(** The sum of the gpas as [generateReports] adds them up, from [acc]. *)
Definition sum_gpas (v : list Student) (acc : double) : double :=
  foldl (fun acc s => SFadd prec emax acc (getGpa s)) acc v.

(** A course name that the file format holds: not empty, and without a
    separator of the format. *)
Definition clean_course (c : str) : Prop :=
  c ≠ [] /\ (","%char ∉ c) /\ (";"%char ∉ c) /\ ("010"%char ∉ c).

(** The record that [addStudent] makes of what was typed, [k] being the gpa
    in hundredths, after the courses [cs] were added one by one. *)
Definition typed_record (id : Z) (name : str) (age k : Z) (cs : list str) : Student :=
  foldl (fun st c => addCourse c st) (Student_new id name age (hundredths k)) cs.

(** * Properties *)

(** ** Doubles *)

(** The literals are what [strtod] makes of the decimals of the source. *)
Lemma literals_nearest :
  stod (lit "0.0") = Ok d0_0 /\ stod (lit "1.0") = Ok d1_0 /\
  stod (lit "2.0") = Ok d2_0 /\ stod (lit "3.0") = Ok d3_0 /\
  stod (lit "3.5") = Ok d3_5 /\ stod (lit "3.7") = Ok d3_7 /\
  stod (lit "4.0") = Ok d4_0 /\
  Forall is_double [d0_0; d1_0; d2_0; d3_0; d3_5; d3_7; d4_0].
Proof. repeat split; repeat constructor; vm_compute; reflexivity. Qed.

Lemma digits2_pos_log2 (m : positive) :
  Z.pos (digits2_pos m) = Z.log2 (Z.pos m) + 1.
Proof.
  induction m as [m IH | m IH | ]; simpl digits2_pos; try reflexivity.
  - rewrite Pos2Z.inj_succ, IH. change (Z.pos m~1) with (2 * Z.pos m + 1).
    rewrite Z.log2_succ_double by lia. lia.
  - rewrite Pos2Z.inj_succ, IH. change (Z.pos m~0) with (2 * Z.pos m).
    rewrite Z.log2_double by lia. lia.
Qed.

Lemma digits2_pos_bounds (m : positive) :
  2 ^ (Z.pos (digits2_pos m) - 1) <= Z.pos m < 2 ^ Z.pos (digits2_pos m).
Proof.
  rewrite digits2_pos_log2.
  replace (Z.log2 (Z.pos m) + 1 - 1) with (Z.log2 (Z.pos m)) by lia.
  replace (Z.log2 (Z.pos m) + 1) with (Z.succ (Z.log2 (Z.pos m))) by lia.
  apply Z.log2_spec. lia.
Qed.

(** A well-formed finite double has a 53-bit mantissa, or is subnormal with
    the least exponent. *)
Lemma valid_finite (s : bool) (m : positive) (e : Z) :
  is_double (S754_finite s m e) ->
  e <= 971 /\
  (Z.pos (digits2_pos m) = 53 \/ (e = -1074 /\ Z.pos (digits2_pos m) <= 53)).
Proof.
  unfold is_double, valid_binary, bounded, canonical_mantissa, fexp, SpecFloat.emin,
    prec, emax.
  intros H. apply andb_prop in H as [H1 H2].
  apply Z.eqb_eq in H1. apply Z.leb_le in H2. lia.
Qed.

Lemma SFleb_pos_finite (m1 m2 : positive) (e1 e2 : Z) :
  SFleb (S754_finite false m1 e1) (S754_finite false m2 e2) = true <->
  e1 < e2 \/ (e1 = e2 /\ Z.pos m1 <= Z.pos m2).
Proof.
  unfold SFleb, SFcompare.
  destruct (Z.compare_spec e1 e2) as [-> | Hlt | Hgt].
  - change (Pos.compare_cont Eq m1 m2) with (Z.pos m1 ?= Z.pos m2).
    destruct (Z.compare_spec (Z.pos m1) (Z.pos m2)) as [Hc | Hc | Hc];
      split; intros H; try lia; try discriminate; trivial.
  - split; intros; [lia | trivial].
  - split; intros H; [discriminate | lia].
Qed.

(** The test of [setGpa], on well-formed doubles, is the test on the real
    numbers they stand for. *)
Lemma setGpa_test_iff (v : double) :
  is_double v ->
  double_ge v d0_0 && double_le v d4_0 = true <-> in_gpa_domain v.
Proof.
  intros Hv. unfold double_ge, double_le, d0_0, d4_0, in_gpa_domain.
  destruct v as [sg | sg | | sg m e]; try (destruct sg); simpl; try tauto;
    try (split; [discriminate | tauto]).
  rewrite SFleb_pos_finite. unfold finite_le_int.
  apply valid_finite in Hv as [Hmax Hcanon].
  pose proof (digits2_pos_bounds m) as [Hlo Hhi].
  assert (Hup : Z.pos m < 2 ^ 53).
  { eapply Z.lt_le_trans; [exact Hhi |]. apply Z.pow_le_mono_r; lia. }
  split.
  - intros [Hlt | [-> Hle]].
    + destruct (0 <=? e) eqn:He; [apply Z.leb_le in He; lia |].
      assert (2 ^ 51 <= 2 ^ (- e)) by (apply Z.pow_le_mono_r; lia). lia.
    + change (Z.pos m <= 4503599627370496). lia.
  - intros Hle. destruct (Z.lt_trichotomy e (-50)) as [Hlt | [-> | Hgt]].
    + now left.
    + right. split; [reflexivity |].
      change (Z.pos m <= 4503599627370496) in Hle. lia.
    + exfalso. destruct Hcanon as [Hd | [-> _]]; [| lia].
      rewrite Hd in Hlo. change (2 ^ (53 - 1)) with 4503599627370496 in Hlo.
      destruct (0 <=? e) eqn:He.
      * apply Z.leb_le in He.
        assert (0 < 2 ^ e) by (apply Z.pow_pos_nonneg; lia). nia.
      * apply Z.leb_gt in He.
        assert (2 ^ (- e) <= 2 ^ 49) by (apply Z.pow_le_mono_r; lia). lia.
Qed.

(** C6. [setGpa(v)] stores exactly [v] when [v] lies in [[0.0, 4.0]] and
    leaves the stored gpa as it was otherwise (nothing is reported: the
    function only returns the object); no other field changes in either
    case. *)
Theorem setGpa_in_range_only (v : double) (s : Student) :
  is_double v ->
  (in_gpa_domain v -> getGpa (setGpa v s) = v) /\
  (~ in_gpa_domain v -> setGpa v s = s) /\
  getId (setGpa v s) = getId s /\
  getName (setGpa v s) = getName s /\
  getAge (setGpa v s) = getAge s /\
  getCourses (setGpa v s) = getCourses s.
Proof.
  intros Hv. pose proof (setGpa_test_iff v Hv) as Hiff. unfold setGpa.
  destruct (double_ge v d0_0 && double_le v d4_0) eqn:Htest.
  - repeat split; try reflexivity. intros Hn. exfalso. apply Hn, Hiff. reflexivity.
  - repeat split; try reflexivity. intros Hin. apply Hiff in Hin. discriminate.
Qed.

Lemma setGpa_in_range_only_witness :
  getGpa (setGpa d3_7 Student_default) = d3_7 /\
  setGpa (S754_finite false 5629499534213120 (-50)) (Student_new 1 (lit "Alice") 20 d3_5) =
    Student_new 1 (lit "Alice") 20 d3_5.
Proof.
  split.
  - apply (setGpa_in_range_only d3_7 Student_default); [reflexivity |].
    vm_compute. discriminate.
  - apply (setGpa_in_range_only (S754_finite false 5629499534213120 (-50))); [reflexivity |].
    vm_compute. intros H. apply H. reflexivity.
Defined.

(** C10. An honor student ([gpa >= 3.5]) has grade level ["A"] or ["B"]. *)
Theorem honor_student_grade_A_or_B (s : Student) :
  isHonorStudent s = true ->
  getGradeLevel s = lit "A" \/ getGradeLevel s = lit "B".
Proof.
  unfold isHonorStudent, getGradeLevel, double_ge. intros Hh.
  destruct (SFleb d3_7 (getGpa s)); [now left | right].
  assert (H30 : SFleb d3_0 (getGpa s) = true); [| now rewrite H30].
  destruct (getGpa s) as [sg | sg | | sg m e]; try (destruct sg);
    try discriminate Hh; try reflexivity.
  unfold d3_5 in Hh. unfold d3_0.
  apply SFleb_pos_finite in Hh. apply SFleb_pos_finite. lia.
Qed.

Lemma honor_student_grade_A_or_B_witness :
  isHonorStudent (Student_new 7 (lit "Grace") 21 d3_5) = true /\
  (getGradeLevel (Student_new 7 (lit "Grace") 21 d3_5) = lit "A" \/
   getGradeLevel (Student_new 7 (lit "Grace") 21 d3_5) = lit "B").
Proof.
  split; [reflexivity |].
  apply (honor_student_grade_A_or_B (Student_new 7 (lit "Grace") 21 d3_5)).
  reflexivity.
Defined.

(** ** [std::remove] and [removeCourse] *)

Section Remove.
Variable value : str.

Let keep (y : str) : Prop := y ≠ value.

Lemma filter_keep_all (l : list str) : Forall keep l -> filter keep l = l.
Proof.
  induction 1 as [| y l Hy _ IH]; [reflexivity |].
  rewrite filter_cons_True by exact Hy. now rewrite IH.
Qed.

(** [std::find] stops at the first element equal to [value]. *)
Lemma find_loop_spec (v : list str) (k i : nat) :
  (i + k = length v)%nat ->
  Forall keep (take i v) ->
  Forall keep (take (find_loop v value k i) v) /\
  (find_loop v value k i <= length v)%nat /\
  ((find_loop v value k i < length v)%nat ->
   v !! find_loop v value k i = Some value).
Proof.
  revert i. induction k as [| k IH]; intros i Hlen Hpre; simpl.
  - repeat split; [assumption | lia | lia].
  - destruct (lookup_lt_is_Some_2 v i) as [y Hy]; [lia |]. rewrite Hy.
    destruct (decide (y = value)) as [-> | Hne].
    + repeat split; [assumption | lia | auto].
    + apply IH; [lia |]. rewrite (take_S_r _ _ _ Hy).
      apply Forall_app. split; [assumption |]. now constructor.
Qed.

(** Invariant of the shifting loop: the slots below [result] hold, in
    order, the elements kept so far; the slots from [first] on are
    untouched. *)
Lemma remove_loop_spec (k first result : nat) (v : list str) :
  (first + k = length v)%nat ->
  (result <= first)%nat ->
  length (remove_loop value k first result v).2 = length v /\
  take (remove_loop value k first result v).1
       (remove_loop value k first result v).2 =
    take result v ++ filter keep (drop first v).
Proof.
  revert first result v.
  induction k as [| k IH]; intros first result v Hlen Hle; simpl.
  - split; [reflexivity |]. rewrite drop_ge by lia. now rewrite app_nil_r.
  - destruct (lookup_lt_is_Some_2 v first) as [y Hy]; [lia |]. rewrite Hy.
    rewrite (drop_S _ _ _ Hy).
    destruct (decide (y = value)) as [-> | Hne].
    + rewrite filter_cons_False by (intros H; now apply H).
      apply IH; lia.
    + rewrite filter_cons_True by exact Hne.
      destruct (IH (S first) (S result) (<[result := y]> v)) as [IH1 IH2];
        [rewrite length_insert; lia | lia |].
      rewrite length_insert in IH1. split; [exact IH1 |].
      rewrite IH2. rewrite drop_insert_lt by lia.
      rewrite (take_S_r _ _ y) by (apply list_lookup_insert_eq; lia).
      rewrite take_insert_ge by lia. now rewrite <- app_assoc.
Qed.

(** The erase-remove idiom keeps exactly the elements other than [value],
    in their order. *)
Lemma erase_remove_filter (v : list str) :
  erase_range (std_remove v value).2 (std_remove v value).1
              (length (std_remove v value).2) = filter keep v.
Proof.
  unfold std_remove, std_find.
  destruct (find_loop_spec v (length v) 0) as (Hpre & Hle & Hhit);
    [lia | constructor |].
  set (first := find_loop v value (length v) 0) in *.
  destruct (decide (first = length v)) as [Heq | Hne]; unfold erase_range; simpl.
  - rewrite Heq in *. rewrite take_ge in * by lia. rewrite drop_ge by lia.
    rewrite app_nil_r. symmetry. now apply filter_keep_all.
  - destruct (remove_loop_spec (length v - S first) (S first) first v)
      as [H1 H2]; [lia | lia |].
    rewrite drop_ge, app_nil_r by lia. rewrite H2.
    rewrite <- (take_drop_middle v first value) at 3 by (apply Hhit; lia).
    rewrite filter_app, filter_cons_False by (intros H; now apply H).
    now rewrite (filter_keep_all _ Hpre).
Qed.
End Remove.

Lemma removeCourse_courses (course : str) (s : Student) :
  getCourses (removeCourse course s) = filter (fun c => c ≠ course) (getCourses s).
Proof.
  unfold removeCourse. rewrite <- erase_remove_filter.
  now destruct (std_remove (getCourses s) course).
Qed.

(** C7. [removeCourse(name)] removes every occurrence of [name] and keeps
    the other courses in their order; it changes nothing when [name] is
    absent, and no other field in any case; after ["Math"] was added twice
    to a record without courses, one [removeCourse("Math")] leaves no
    course. *)
Theorem removeCourse_removes_all (course : str) (s : Student) :
  getCourses (removeCourse course s) = filter (fun c => c ≠ course) (getCourses s) /\
  (course ∉ getCourses s -> removeCourse course s = s) /\
  getId (removeCourse course s) = getId s /\
  getName (removeCourse course s) = getName s /\
  getAge (removeCourse course s) = getAge s /\
  getGpa (removeCourse course s) = getGpa s /\
  (getCourses s = [] ->
   getCourses (addCourse (lit "Math") (addCourse (lit "Math") s)) =
     [lit "Math"; lit "Math"] /\
   getCourses (removeCourse (lit "Math")
                 (addCourse (lit "Math") (addCourse (lit "Math") s))) = []).
Proof.
  split; [apply removeCourse_courses |].
  split.
  - intros Hnot. pose proof (removeCourse_courses course s) as Hc.
    rewrite filter_keep_all in Hc.
    + unfold removeCourse in *. destruct (std_remove (getCourses s) course).
      simpl in Hc. destruct s; simpl in *. now rewrite Hc.
    + apply Forall_forall. intros y Hy ->. now apply Hnot.
  - repeat split; try (unfold removeCourse;
      now destruct (std_remove (getCourses s) course)).
    + simpl. now rewrite H.
    + rewrite removeCourse_courses. simpl. now rewrite H.
Qed.

Lemma removeCourse_removes_all_witness :
  removeCourse (lit "Art") (addCourse (lit "Math") Student_default) =
    addCourse (lit "Math") Student_default /\
  getCourses (removeCourse (lit "Math")
                (addCourse (lit "Math") (addCourse (lit "Math") Student_default)))
    = [].
Proof.
  split.
  - apply (removeCourse_removes_all (lit "Art") (addCourse (lit "Math") Student_default)).
    vm_compute. intros H. inversion H as [| ? ? ? H']; subst.
    inversion H'.
  - apply (removeCourse_removes_all (lit "Math") Student_default). reflexivity.
Defined.

(** ** The roster: create, delete, search *)

Lemma findStudentById_Some (id : Z) (m : StudentManager) (i : nat) (s : Student) :
  findStudentById id m = Some (i, s) ->
  students m = take i (students m) ++ s :: drop (S i) (students m) /\
  getId s = id /\
  Forall (fun x => getId x ≠ id) (take i (students m)).
Proof.
  unfold findStudentById. intros H. apply list_find_Some in H as (Hi & Hid & Hmin).
  split; [symmetry; now apply take_drop_middle |]. split; [exact Hid |].
  apply Forall_forall. intros x Hx.
  apply list_elem_of_lookup in Hx as [j Hj].
  pose proof (lookup_lt_Some _ _ _ Hj) as Hlt. rewrite length_take in Hlt.
  rewrite lookup_take_lt in Hj by lia. apply (Hmin j x Hj). lia.
Qed.

Lemma findStudentById_None (id : Z) (m : StudentManager) :
  findStudentById id m = None <-> id ∉ getId <$> students m.
Proof.
  unfold findStudentById. rewrite list_find_None, Forall_forall. split.
  - intros H Hin. apply list_elem_of_fmap in Hin as (s & -> & Hs). now apply (H s).
  - intros H s Hs Hid. apply H. apply list_elem_of_fmap. now exists s.
Qed.

(** C4. [addStudent] with an id already in the roster is refused and leaves
    the manager as it was; with a fresh id it appends exactly the new
    record; hence ids that were pairwise distinct stay so. *)
Theorem addStudent_unique_ids (id : Z) (name : str) (age : Z) (gpa : double)
    (m : StudentManager) :
  (id ∈ getId <$> students m ->
   (addStudent id name age gpa m).2 = m /\
   last (messages (addStudent id name age gpa m).1) =
     Some (lit "Error: Student with ID " ++ to_string_int id ++
           lit " already exists!" ++ endl)) /\
  (id ∉ getId <$> students m ->
   students (addStudent id name age gpa m).2 =
     students m ++ [Student_new id name age gpa] /\
   filename (addStudent id name age gpa m).2 = filename m) /\
  (NoDup (getId <$> students m) ->
   NoDup (getId <$> students (addStudent id name age gpa m).2)).
Proof.
  unfold addStudent.
  destruct (findStudentById id m) as [[i s] |] eqn:Hfind.
  - split; [| split].
    + intros _. split; reflexivity.
    + intros Hnot. apply findStudentById_None in Hnot. congruence.
    + intros Hnd. exact Hnd.
  - apply findStudentById_None in Hfind. split; [| split].
    + intros Hin. contradiction.
    + intros _. split; reflexivity.
    + simpl. intros Hnd. rewrite fmap_app. apply NoDup_app. split; [exact Hnd |].
      split; [| apply NoDup_singleton].
      intros x Hx Hx'. apply list_elem_of_singleton in Hx'. simpl in Hx'. now subst.
Qed.

Lemma addStudent_unique_ids_witness :
  (addStudent 1 (lit "Bob") 30 d2_0
     (mkManager [Student_new 1 (lit "Alice") 20 d3_7] (lit "students.txt"))).2 =
    mkManager [Student_new 1 (lit "Alice") 20 d3_7] (lit "students.txt") /\
  students (addStudent 2 (lit "Bob") 30 d2_0
     (mkManager [Student_new 1 (lit "Alice") 20 d3_7] (lit "students.txt"))).2 =
    [Student_new 1 (lit "Alice") 20 d3_7; Student_new 2 (lit "Bob") 30 d2_0] /\
  NoDup (getId <$> students (addStudent 2 (lit "Bob") 30 d2_0
     (mkManager [Student_new 1 (lit "Alice") 20 d3_7] (lit "students.txt"))).2).
Proof.
  split; [| split].
  - apply (addStudent_unique_ids 1 (lit "Bob") 30 d2_0
             (mkManager [Student_new 1 (lit "Alice") 20 d3_7] (lit "students.txt"))).
    simpl. apply list_elem_of_here.
  - apply (addStudent_unique_ids 2 (lit "Bob") 30 d2_0
             (mkManager [Student_new 1 (lit "Alice") 20 d3_7] (lit "students.txt"))).
    simpl. intros H. apply list_elem_of_singleton in H. discriminate.
  - apply (addStudent_unique_ids 2 (lit "Bob") 30 d2_0
             (mkManager [Student_new 1 (lit "Alice") 20 d3_7] (lit "students.txt"))).
    simpl. apply NoDup_singleton.
Defined.

(** C5. When some record has the id, [removeStudent] removes the first such
    record and nothing else: the records before and after it stay, in their
    order, and the length drops by one. When none has it, the roster is
    unchanged and the "not found" message is written. *)
Theorem removeStudent_removes_first (id : Z) (m : StudentManager) :
  (id ∈ getId <$> students m ->
   exists l1 s l2,
     students m = l1 ++ s :: l2 /\
     getId s = id /\
     Forall (fun x => getId x ≠ id) l1 /\
     students (removeStudent id m).2 = l1 ++ l2 /\
     (length (students (removeStudent id m).2) + 1 = length (students m))%nat /\
     filename (removeStudent id m).2 = filename m) /\
  (id ∉ getId <$> students m ->
   (removeStudent id m).2 = m /\
   last (messages (removeStudent id m).1) =
     Some (lit "Student with ID " ++ to_string_int id ++ lit " not found!" ++ endl)).
Proof.
  unfold removeStudent.
  destruct (findStudentById id m) as [[i s] |] eqn:Hfind.
  - split.
    + intros _. apply findStudentById_Some in Hfind as (Hsplit & Hid & Hbefore).
      exists (take i (students m)), s, (drop (S i) (students m)).
      repeat split; try assumption; simpl.
      * apply delete_take_drop.
      * rewrite delete_take_drop. rewrite Hsplit at 3.
        rewrite !length_app. simpl. lia.
    + intros Hnot. apply findStudentById_None in Hnot. congruence.
  - apply findStudentById_None in Hfind. split; [tauto |].
    intros _. split; reflexivity.
Qed.

Lemma removeStudent_removes_first_witness :
  (exists l1 s l2,
     [Student_new 1 (lit "Alice") 20 d3_7; Student_new 2 (lit "Bob") 30 d2_0;
      Student_new 2 (lit "Bo") 31 d1_0] = l1 ++ s :: l2 /\
     getId s = 2 /\
     Forall (fun x => getId x ≠ 2) l1 /\
     students (removeStudent 2 (mkManager
       [Student_new 1 (lit "Alice") 20 d3_7; Student_new 2 (lit "Bob") 30 d2_0;
        Student_new 2 (lit "Bo") 31 d1_0] (lit "students.txt"))).2 = l1 ++ l2 /\
     (length (students (removeStudent 2 (mkManager
       [Student_new 1 (lit "Alice") 20 d3_7; Student_new 2 (lit "Bob") 30 d2_0;
        Student_new 2 (lit "Bo") 31 d1_0] (lit "students.txt"))).2) + 1 = 3)%nat /\
     lit "students.txt" = lit "students.txt") /\
  (removeStudent 5 (mkManager [Student_new 1 (lit "Alice") 20 d3_7]
                      (lit "students.txt"))).2 =
    mkManager [Student_new 1 (lit "Alice") 20 d3_7] (lit "students.txt").
Proof.
  split.
  - apply (removeStudent_removes_first 2 (mkManager
       [Student_new 1 (lit "Alice") 20 d3_7; Student_new 2 (lit "Bob") 30 d2_0;
        Student_new 2 (lit "Bo") 31 d1_0] (lit "students.txt"))).
    simpl. apply list_elem_of_further, list_elem_of_here.
  - apply (removeStudent_removes_first 5 (mkManager
       [Student_new 1 (lit "Alice") 20 d3_7] (lit "students.txt"))).
    simpl. intros H. apply list_elem_of_singleton in H. discriminate.
Defined.

Lemma find_str_empty (s : str) : find_str s [] 0 = 0.
Proof.
  unfold find_str.
  assert (H : (0 <=? len s) = true) by (apply Z.leb_le; unfold len; lia).
  rewrite H. simpl. now destruct s.
Qed.

Lemma search_loop_empty_name (v : list Student) (found : bool) :
  search_loop [] v found =
    (FullInfo <$> v, match v with [] => found | _ :: _ => true end).
Proof.
  revert found. induction v as [| s v IH]; intros found; simpl; [reflexivity |].
  rewrite find_str_empty. change (negb (0 =? npos)) with true. cbv iota.
  rewrite IH. now destruct v.
Qed.

Lemma shown_FullInfo (v : list Student) : shown (FullInfo <$> v) = v.
Proof. induction v as [| s v IH]; [reflexivity |]. cbn. now f_equal. Qed.

(** C9. A search by name with the empty text shows every record of the
    roster, in roster order (and never the "No students found" message,
    unless the roster is empty). *)
Theorem search_empty_name_shows_all (id : Z) (m : StudentManager) :
  shown (searchStudent 2 id [] m) = students m /\
  (students m ≠ [] ->
   searchStudent 2 id [] m =
     [Text (endl ++ lit "=== Search Student ===" ++ endl);
      Text (lit "1. Search by ID" ++ endl);
      Text (lit "2. Search by Name" ++ endl);
      Text (lit "Choose option: ");
      Text (lit "Enter student name: ")] ++ (FullInfo <$> students m)).
Proof.
  unfold searchStudent. change (2 =? 1) with false. change (2 =? 2) with true.
  cbv iota. rewrite search_loop_empty_name. split.
  - unfold shown. simpl. rewrite omap_app. fold (shown (FullInfo <$> students m)).
    rewrite shown_FullInfo. destruct (students m); simpl; now rewrite ?app_nil_r.
  - intros Hne. destruct (students m) as [| s v]; [contradiction |].
    simpl. now rewrite app_nil_r.
Qed.

Lemma search_empty_name_shows_all_witness :
  shown (searchStudent 2 0 []
           (mkManager [Student_new 1 (lit "Alice") 20 d3_7;
                       Student_new 2 (lit "") 30 d2_0] (lit "students.txt"))) =
    [Student_new 1 (lit "Alice") 20 d3_7; Student_new 2 (lit "") 30 d2_0] /\
  messages (searchStudent 2 0 []
           (mkManager [Student_new 1 (lit "Alice") 20 d3_7;
                       Student_new 2 (lit "") 30 d2_0] (lit "students.txt"))) =
    [endl ++ lit "=== Search Student ===" ++ endl;
     lit "1. Search by ID" ++ endl; lit "2. Search by Name" ++ endl;
     lit "Choose option: "; lit "Enter student name: "].
Proof.
  split.
  - apply (search_empty_name_shows_all 0
             (mkManager [Student_new 1 (lit "Alice") 20 d3_7;
                         Student_new 2 (lit "") 30 d2_0] (lit "students.txt"))).
  - rewrite (proj2 (search_empty_name_shows_all 0
               (mkManager [Student_new 1 (lit "Alice") 20 d3_7;
                           Student_new 2 (lit "") 30 d2_0] (lit "students.txt"))));
      [reflexivity | discriminate].
Defined.

(** ** Strings: [find], [substr] and concatenation *)

Lemma len_app (a b : str) : len (a ++ b) = len a + len b.
Proof. unfold len. rewrite length_app. lia. Qed.

Lemma len_cons (c : ascii) (a : str) : len (c :: a) = 1 + len a.
Proof. unfold len. simpl length. lia. Qed.

Lemma len_nil : len [] = 0.
Proof. reflexivity. Qed.

Lemma len_nonneg (a : str) : 0 <= len a.
Proof. unfold len. lia. Qed.

Lemma wrap_small (z : Z) : 0 <= z < size_modulus -> wrap z = z.
Proof. intros H. unfold wrap. now apply Z.mod_small. Qed.

Lemma sz_add_small (a b : Z) : 0 <= a + b < size_modulus -> a +! b = a + b.
Proof. apply wrap_small. Qed.

Lemma sz_sub_small (a b : Z) : 0 <= a - b < size_modulus -> a -! b = a - b.
Proof. apply wrap_small. Qed.

(** Removes the wrap-arounds that the known bounds exclude. *)
Ltac size_arith :=
  repeat match goal with
         | |- context [?a +! ?b] => rewrite (sz_add_small a b) by lia
         | |- context [?a -! ?b] => rewrite (sz_sub_small a b) by lia
         end.

Lemma npos_value : npos = 18446744073709551615.
Proof. reflexivity. Qed.

Lemma size_modulus_value : size_modulus = 18446744073709551616.
Proof. reflexivity. Qed.

Lemma eqb_not_elem (c x : ascii) (a : str) : c ∉ x :: a -> Ascii.eqb x c = false /\ c ∉ a.
Proof.
  intros H. split.
  - apply Ascii.eqb_neq. intros ->. apply H. constructor.
  - intros Hin. apply H. now constructor.
Qed.

Lemma find_char_from_app (c : ascii) (a b : str) (i : Z) :
  c ∉ a -> find_char_from c (a ++ c :: b) i = i + len a.
Proof.
  revert i. induction a as [| x a IH]; intros i Hnot; simpl.
  - rewrite Ascii.eqb_refl. unfold len. simpl. lia.
  - apply eqb_not_elem in Hnot as [-> Hnot]. rewrite IH by assumption.
    rewrite len_cons. lia.
Qed.

Lemma find_char_from_none (c : ascii) (a : str) (i : Z) :
  c ∉ a -> find_char_from c a i = npos.
Proof.
  revert i. induction a as [| x a IH]; intros i Hnot; simpl; [reflexivity |].
  apply eqb_not_elem in Hnot as [-> Hnot]. now apply IH.
Qed.

Lemma drop_len_app (p q : str) : drop (Z.to_nat (len p)) (p ++ q) = q.
Proof. unfold len. rewrite Nat2Z.id. apply drop_app_length. Qed.

(** The next [c] after a prefix [p], when the text goes on with a [c]-free
    [a] and then a [c]. *)
Lemma find_char_at (p a b : str) (c : ascii) :
  c ∉ a -> find_char (p ++ a ++ c :: b) c (len p) = len p + len a.
Proof.
  intros Hnot. unfold find_char.
  assert (H : (len p <? len (p ++ a ++ c :: b)) = true).
  { apply Z.ltb_lt. rewrite !len_app, len_cons.
    pose proof (len_nonneg a). pose proof (len_nonneg b). lia. }
  rewrite H, drop_len_app. now apply find_char_from_app.
Qed.

(** No [c] after the prefix [p]. *)
Lemma find_char_end (p a : str) (c : ascii) :
  c ∉ a -> find_char (p ++ a) c (len p) = npos.
Proof.
  intros Hnot. unfold find_char.
  destruct (len p <? len (p ++ a)); [| reflexivity].
  rewrite drop_len_app. now apply find_char_from_none.
Qed.

Lemma find_char_from_bounds (c : ascii) (s : str) (i : Z) :
  find_char_from c s i = npos \/ i <= find_char_from c s i < i + len s.
Proof.
  revert i. induction s as [| x s IH]; intros i; simpl; [now left |].
  rewrite len_cons. pose proof (len_nonneg s).
  destruct (Ascii.eqb x c); [right; lia |].
  destruct (IH (i + 1)) as [-> | Hb]; [now left | right; lia].
Qed.

(** [find] gives [npos] or a position from [pos] on, inside the string. *)
Lemma find_char_bounds (s : str) (c : ascii) (pos : Z) :
  0 <= pos ->
  find_char s c pos = npos \/ pos <= find_char s c pos < len s.
Proof.
  intros Hpos. unfold find_char.
  destruct (pos <? len s) eqn:Hlt; [| now left].
  apply Z.ltb_lt in Hlt.
  destruct (find_char_from_bounds c (drop (Z.to_nat pos) s) pos) as [-> | Hb];
    [now left | right].
  unfold len in *. rewrite length_drop in Hb. lia.
Qed.

Lemma substr_app (p q : str) (n : Z) :
  0 <= n -> substr (p ++ q) (len p) n = Ok (take (Z.to_nat n) q).
Proof.
  intros Hn. unfold substr.
  assert (H : (len (p ++ q) <? len p) = false).
  { apply Z.ltb_ge. rewrite len_app. pose proof (len_nonneg q). lia. }
  rewrite H, drop_len_app, len_app. f_equal.
  replace (len p + len q - len p) with (len q) by lia.
  destruct (Z.le_ge_cases n (len q)) as [Hle | Hge].
  - now rewrite Z.min_l.
  - rewrite Z.min_r by assumption. unfold len in *.
    rewrite Nat2Z.id, !take_ge; [reflexivity | lia | lia].
Qed.

Lemma substr_at (p a b : str) : substr (p ++ a ++ b) (len p) (len a) = Ok a.
Proof.
  rewrite substr_app by apply len_nonneg. unfold len. rewrite Nat2Z.id.
  now rewrite take_app_length.
Qed.

Lemma substr_rest (p a : str) (n : Z) :
  len a <= n -> substr (p ++ a) (len p) n = Ok a.
Proof.
  intros Hn. pose proof (len_nonneg a).
  rewrite substr_app by lia. unfold len in *. rewrite take_ge; [reflexivity | lia].
Qed.

(** [substr] throws only for a start beyond the end. *)
Lemma substr_ok (s : str) (pos n : Z) :
  pos <= len s -> exists t, substr s pos n = Ok t.
Proof.
  intros H. unfold substr.
  assert (Hlt : (len s <? pos) = false) by (apply Z.ltb_ge; lia).
  rewrite Hlt. eauto.
Qed.

(** ** [toFileString] *)

Lemma join_cons (sep c : str) (cs : list str) :
  join sep (c :: cs) = c ++ match cs with [] => [] | _ :: _ => sep ++ join sep cs end.
Proof. destruct cs; simpl; [now rewrite app_nil_r | reflexivity]. Qed.

(** The [for] loop of [toFileString] joins the courses with [";"]. *)
Lemma courseList_loop_join (k : nat) (courses : list str) (i : Z) (acc : str) :
  vsize courses < size_modulus ->
  0 <= i ->
  (Z.to_nat i + k = length courses)%nat ->
  courseList_loop k courses i acc = acc ++ join (lit ";") (drop (Z.to_nat i) courses).
Proof.
  intros Hsize. revert i acc.
  induction k as [| k IH]; intros i acc Hi Hlen; simpl.
  - rewrite drop_ge by lia. simpl. now rewrite app_nil_r.
  - destruct (lookup_lt_is_Some_2 courses (Z.to_nat i)) as [c Hc]; [lia |].
    rewrite Hc, (drop_S _ _ _ Hc), join_cons.
    assert (Hw : vsize courses -! 1 = vsize courses - 1).
    { apply wrap_small. unfold vsize in *. lia. }
    assert (Hi1 : i +! 1 = i + 1).
    { apply wrap_small. unfold vsize in *. lia. }
    rewrite Hw, Hi1, IH by lia.
    replace (Z.to_nat (i + 1)) with (S (Z.to_nat i)) by lia.
    destruct k as [| k].
    + assert (Hlast : (i <? vsize courses - 1) = false).
      { apply Z.ltb_ge. unfold vsize. lia. }
      rewrite Hlast, drop_ge by lia. simpl. now rewrite !app_nil_r.
    + assert (Hmore : (i <? vsize courses - 1) = true).
      { apply Z.ltb_lt. unfold vsize. lia. }
      rewrite Hmore.
      destruct (drop (S (Z.to_nat i)) courses) as [| c' rest] eqn:Hrest.
      * apply (f_equal length) in Hrest. rewrite length_drop in Hrest.
        simpl in Hrest. lia.
      * now rewrite <- !app_assoc.
Qed.

Lemma toFileString_join (s : Student) :
  vsize (getCourses s) < size_modulus ->
  toFileString s = header s ++ lit "," ++ join (lit ";") (getCourses s).
Proof.
  intros Hsize. unfold toFileString, header.
  rewrite courseList_loop_join by (simpl; lia). simpl drop.
  now rewrite <- !app_assoc.
Qed.

(** C3 (amended). [toFileString] gives the line [id,name,age,gpa,c1;c2;...]:
    the four fields and the course field are joined by commas, the courses
    by semicolons. The comma after the gpa field is always written: with no
    course the line ends with that comma, and with at least one course the
    line is the one the specification words. *)
Theorem toFileString_format (s : Student) :
  vsize (getCourses s) < size_modulus ->
  toFileString s = header s ++ lit "," ++ join (lit ";") (getCourses s) /\
  (getCourses s = [] -> toFileString s = header s ++ lit ",") /\
  (getCourses s ≠ [] -> toFileString s = Serialize_spec s).
Proof.
  intros Hsize. pose proof (toFileString_join s Hsize) as H.
  split; [exact H |]. split.
  - intros Hnil. rewrite H, Hnil. reflexivity.
  - intros Hne. rewrite H. unfold Serialize_spec.
    destruct (getCourses s); [contradiction | reflexivity].
Qed.

Lemma toFileString_format_witness :
  toFileString (Student_new 1 (lit "Alice") 20 d3_7) =
    header (Student_new 1 (lit "Alice") 20 d3_7) ++ lit "," /\
  toFileString (addCourse (lit "Math") (addCourse (lit "Art") Student_default)) =
    Serialize_spec (addCourse (lit "Math") (addCourse (lit "Art") Student_default)).
Proof.
  split.
  - apply (toFileString_format (Student_new 1 (lit "Alice") 20 d3_7));
      reflexivity.
  - apply (toFileString_format
             (addCourse (lit "Math") (addCourse (lit "Art") Student_default)));
      [reflexivity | discriminate].
Defined.

(** The claim C3 as worded fails for a record without courses: the line
    the program writes ends with a comma, the line of the specification
    does not. *)
Lemma toFileString_trailing_comma :
  getCourses (Student_new 1 (lit "Alice") 20 d3_7) = [] /\
  toFileString (Student_new 1 (lit "Alice") 20 d3_7) = lit "1,Alice,20,3.700000," /\
  Serialize_spec (Student_new 1 (lit "Alice") 20 d3_7) = lit "1,Alice,20,3.700000" /\
  toFileString (Student_new 1 (lit "Alice") 20 d3_7) ≠
    Serialize_spec (Student_new 1 (lit "Alice") 20 d3_7).
Proof. repeat split. vm_compute. discriminate. Qed.

(** ** Printing and reading integers *)

Lemma uint_chars_digits (d : uint) : Forall (fun c => isdigit c = true) (uint_chars d).
Proof. induction d; unfold uint_chars in *; simpl; constructor; auto. Qed.

Lemma digits_value_stop (rest : str) (acc : Z) :
  starts_with_digit rest = false -> digits_value rest acc = acc.
Proof. destruct rest as [| c rest]; simpl; [reflexivity |]. now intros ->. Qed.

Lemma digits_value_uint_acc (d : uint) (acc : positive) (rest : str) :
  starts_with_digit rest = false ->
  digits_value (uint_chars d ++ rest) (Z.pos acc) = Z.pos (Pos.of_uint_acc d acc).
Proof.
  intros Hrest. revert acc.
  induction d as [| d IH | d IH | d IH | d IH | d IH | d IH | d IH | d IH | d IH | d IH];
    intros acc;
    [ now apply digits_value_stop | .. ];
    unfold uint_chars in *; simpl NilEmpty.string_of_uint;
    simpl lit; simpl app; simpl digits_value; simpl Pos.of_uint_acc;
    rewrite <- IH; f_equal; unfold digit_val, code;
    match goal with
    | |- context [Z.of_nat (nat_of_ascii ?c)] =>
        let v := eval vm_compute in (Z.of_nat (nat_of_ascii c)) in
        change (Z.of_nat (nat_of_ascii c)) with v
    end; lia.
Qed.

Lemma digits_value_uint (d : uint) (rest : str) :
  starts_with_digit rest = false ->
  digits_value (uint_chars d ++ rest) 0 = Z.of_N (Pos.of_uint d).
Proof.
  intros Hrest.
  induction d as [| d IH | d IH | d IH | d IH | d IH | d IH | d IH | d IH | d IH | d IH];
    [ now apply digits_value_stop | exact IH | .. ];
    unfold uint_chars; simpl NilEmpty.string_of_uint;
    simpl lit; simpl app; simpl digits_value; simpl Pos.of_uint;
    apply (digits_value_uint_acc d _ rest Hrest).
Qed.

Lemma to_string_nat_chars (n : Z) :
  to_string_nat n = uint_chars (N.to_uint (Z.to_N n)) /\
  exists c t, to_string_nat n = c :: t /\ isdigit c = true.
Proof.
  unfold to_string_nat, uint_chars, NilZero.string_of_uint.
  assert (Hnn : N.to_uint (Z.to_N n) <> Nil).
  { destruct (Z.to_N n); simpl; [discriminate | apply Unsigned.to_uint_nonnil]. }
  destruct (N.to_uint (Z.to_N n)) as [| d | d | d | d | d | d | d | d | d | d] eqn:E;
    [contradiction | ..]; (split; [reflexivity |]); simpl; eauto.
Qed.

Lemma to_string_nat_digits (n : Z) : Forall (fun c => isdigit c = true) (to_string_nat n).
Proof.
  destruct (to_string_nat_chars n) as [-> _]. apply uint_chars_digits.
Qed.

Lemma digits_value_to_string_nat (n : Z) (rest : str) :
  0 <= n -> starts_with_digit rest = false ->
  digits_value (to_string_nat n ++ rest) 0 = n.
Proof.
  intros Hn Hrest. destruct (to_string_nat_chars n) as [-> _].
  rewrite digits_value_uint by assumption.
  change (Pos.of_uint (N.to_uint (Z.to_N n))) with (N.of_uint (N.to_uint (Z.to_N n))).
  rewrite DecimalN.Unsigned.of_to. lia.
Qed.

Lemma isdigit_not_special (c : ascii) :
  isdigit c = true ->
  isspace c = false /\ Ascii.eqb c "-" = false /\ Ascii.eqb c "+" = false /\
  c <> ","%char /\ c <> ";"%char.
Proof.
  unfold isdigit, isspace, code. intros H.
  apply andb_prop in H as [H1 H2]. apply Z.leb_le in H1. apply Z.leb_le in H2.
  repeat split;
    [ apply orb_false_intro;
      [apply Z.eqb_neq; lia | apply andb_false_intro2, Z.leb_gt; lia] | .. ];
    rewrite ?Ascii.eqb_neq; intros ->; vm_compute in H1; vm_compute in H2;
    solve [now apply H1 | now apply H2].
Qed.

(** Reading back a printed [int]. *)
Lemma stoi_to_string_int (z : Z) : int_range z -> stoi (to_string_int z) = Ok z.
Proof.
  intros Hr. unfold stoi, to_string_int.
  assert (Hin : forall v, v = z -> in_int_range v = true).
  { intros v ->. unfold in_int_range. destruct Hr.
    apply andb_true_intro. split; now apply Z.leb_le. }
  destruct (z <? 0) eqn:Hz.
  - apply Z.ltb_lt in Hz. simpl.
    destruct (to_string_nat_chars (- z)) as [_ (c & t & E & Hc)].
    assert (Hs : starts_with_digit (to_string_nat (- z)) = true)
      by (rewrite E; exact Hc).
    pose proof (digits_value_to_string_nat (- z) []) as Hv.
    rewrite app_nil_r in Hv. rewrite Hs, Hv by (trivial; lia).
    rewrite Hin by lia. f_equal. lia.
  - apply Z.ltb_ge in Hz.
    destruct (to_string_nat_chars z) as [_ (c & t & E & Hc)].
    destruct (isdigit_not_special c Hc) as (Hsp & Hm & Hp & _).
    assert (Hskip : skip_space (to_string_nat z) = to_string_nat z)
      by (rewrite E; simpl; now rewrite Hsp).
    assert (Hsign : read_sign (to_string_nat z) = (false, to_string_nat z))
      by (rewrite E; unfold read_sign; now rewrite Hm, Hp).
    assert (Hs : starts_with_digit (to_string_nat z) = true)
      by (rewrite E; exact Hc).
    pose proof (digits_value_to_string_nat z []) as Hv.
    rewrite app_nil_r in Hv. rewrite Hskip, Hsign, Hs, Hv by (trivial; lia).
    simpl. now rewrite Hin.
Qed.

Lemma digits_no_comma (s : str) :
  Forall (fun c => isdigit c = true) s -> ","%char ∉ s.
Proof.
  intros H Hin. rewrite Forall_forall in H. apply H in Hin.
  now apply isdigit_not_special in Hin as (_ & _ & _ & Hc & _).
Qed.

Lemma to_string_int_no_comma (z : Z) : ","%char ∉ to_string_int z.
Proof.
  unfold to_string_int. destruct (z <? 0).
  - intros Hin. apply elem_of_cons in Hin as [H | H]; [discriminate |].
    revert H. apply digits_no_comma, to_string_nat_digits.
  - apply digits_no_comma, to_string_nat_digits.
Qed.

(** ** Printing doubles *)

Lemma digit_char_isdigit (d : Z) : 0 <= d < 10 -> isdigit (digit_char d) = true.
Proof.
  intros H. unfold isdigit, digit_char, code.
  rewrite nat_ascii_embedding by lia. apply andb_true_intro.
  split; apply Z.leb_le; lia.
Qed.

Lemma six_digits_digits (n : Z) : Forall (fun c => isdigit c = true) (six_digits n).
Proof.
  unfold six_digits. apply Forall_fmap, Forall_forall. intros p _. simpl.
  apply digit_char_isdigit. apply Z.mod_pos_bound. lia.
Qed.

Lemma fixed6_no_comma (neg : bool) (n : Z) : ","%char ∉ fixed6 neg n.
Proof.
  unfold fixed6. rewrite !elem_of_app. intros [H | [H | [H | H]]].
  - destruct neg; simpl in H; [| inversion H].
    apply list_elem_of_singleton in H. discriminate.
  - revert H. apply digits_no_comma, to_string_nat_digits.
  - apply list_elem_of_singleton in H. discriminate.
  - revert H. apply digits_no_comma, six_digits_digits.
Qed.

Lemma to_string_double_no_comma (x : double) : ","%char ∉ to_string_double x.
Proof.
  destruct x as [s | s | | s m e]; simpl; try apply fixed6_no_comma.
  - destruct s; vm_compute; intros H;
      repeat (apply elem_of_cons in H as [H | H]; [discriminate |]); inversion H.
  - vm_compute; intros H;
      repeat (apply elem_of_cons in H as [H | H]; [discriminate |]); inversion H.
Qed.

Lemma double_same_eq (x y : double) : double_same x y = true -> x = y.
Proof.
  destruct x as [a | a | | a m e], y as [b | b | | b m' e']; simpl;
    try discriminate; try reflexivity.
  - intros H. apply Bool.eqb_prop in H. now subst.
  - intros H. apply Bool.eqb_prop in H. now subst.
  - intros H. apply andb_prop in H as [H He]. apply andb_prop in H as [Hs Hm].
    apply Bool.eqb_prop in Hs. apply Pos.eqb_eq in Hm. apply Z.eqb_eq in He.
    now subst.
Qed.

(** Every gpa with two decimals between 0.00 and 4.00 is a double that its
    persisted text reads back to: the round trip loses nothing on them. *)
Lemma hundredths_read_back (k : Z) :
  0 <= k <= 400 ->
  is_double (hundredths k) /\
  stod (to_string_double (hundredths k)) = Ok (hundredths k).
Proof.
  intros Hk.
  assert (Hall : forallb (fun n => reads_back (hundredths (Z.of_nat n))) (seq 0 401)
                 = true) by (vm_compute; reflexivity).
  rewrite forallb_forall in Hall. specialize (Hall (Z.to_nat k)).
  rewrite Z2Nat.id in Hall by lia.
  assert (Hin : In (Z.to_nat k) (seq 0 401)) by (apply in_seq; lia).
  apply Hall in Hin. unfold reads_back in Hin. apply andb_prop in Hin as [Hv Hr].
  split; [exact Hv |].
  destruct (stod (to_string_double (hundredths k))) as [g' | e |];
    try discriminate.
  now apply double_same_eq in Hr as ->.
Qed.

(** ** [fromFileString]: cutting the line into fields *)

Lemma find_char_at' (s p a b : str) (c : ascii) (pos : Z) :
  s = p ++ a ++ c :: b -> pos = len p -> c ∉ a ->
  find_char s c pos = len p + len a.
Proof. intros -> ->. apply find_char_at. Qed.

Lemma find_char_end' (s p a : str) (c : ascii) (pos : Z) :
  s = p ++ a -> pos = len p -> c ∉ a -> find_char s c pos = npos.
Proof. intros -> ->. apply find_char_end. Qed.

Lemma substr_at' (s p a b : str) (pos n : Z) :
  s = p ++ a ++ b -> pos = len p -> n = len a -> substr s pos n = Ok a.
Proof. intros -> -> ->. apply substr_at. Qed.

Lemma substr_rest' (s p a : str) (pos n : Z) :
  s = p ++ a -> pos = len p -> len a <= n -> substr s pos n = Ok a.
Proof. intros -> ->. apply substr_rest. Qed.

Section Fields.
Variables f0 f1 f2 f3 tail : str.

Let line := fields_line f0 f1 f2 f3 tail.

Hypothesis Hf0 : ","%char ∉ f0.
Hypothesis Hf1 : ","%char ∉ f1.
Hypothesis Hf2 : ","%char ∉ f2.
Hypothesis Hf3 : ","%char ∉ f3.
Hypothesis Htail : tail = [] \/ exists t, tail = ","%char :: t.
Hypothesis Hlen : len line < npos.

Let p1 : str := f0 ++ [","%char].
Let p2 : str := p1 ++ f1 ++ [","%char].
Let p3 : str := p2 ++ f2 ++ [","%char].

Lemma line_len :
  len line = len f0 + len f1 + len f2 + len f3 + len tail + 3.
Proof.
  unfold line, fields_line.
  rewrite !len_app, !len_cons, !len_app, !len_cons, !len_app, !len_cons, len_app.
  lia.
Qed.

Lemma line_p1 : line = p1 ++ f1 ++ ","%char :: f2 ++ ","%char :: f3 ++ tail.
Proof. unfold line, fields_line, p1. now rewrite <- app_assoc. Qed.

Lemma line_p2 : line = p2 ++ f2 ++ ","%char :: f3 ++ tail.
Proof. rewrite line_p1. unfold p2. now rewrite <- !app_assoc. Qed.

Lemma line_p3 : line = p3 ++ f3 ++ tail.
Proof. rewrite line_p2. unfold p3. now rewrite <- !app_assoc. Qed.

Lemma len_p1 : len p1 = len f0 + 1.
Proof. unfold p1. rewrite len_app, len_cons. reflexivity. Qed.

Lemma len_p2 : len p2 = len f0 + len f1 + 2.
Proof. unfold p2. rewrite !len_app, len_cons, len_p1, len_nil. lia. Qed.

Lemma len_p3 : len p3 = len f0 + len f1 + len f2 + 3.
Proof. unfold p3. rewrite !len_app, len_cons, len_p2, len_nil. lia. Qed.

Lemma pos1_eq : find_char line "," 0 = len f0.
Proof.
  apply (find_char_at' line [] f0 (f1 ++ ","%char :: f2 ++ ","%char :: f3 ++ tail));
    [reflexivity | reflexivity | exact Hf0].
Qed.

Lemma pos2_eq : find_char line "," (len f0 + 1) = len f0 + len f1 + 1.
Proof.
  rewrite (find_char_at' line p1 f1 (f2 ++ ","%char :: f3 ++ tail) _ _ line_p1);
    [rewrite len_p1; lia | now rewrite len_p1 | exact Hf1].
Qed.

Lemma pos3_eq : find_char line "," (len f0 + len f1 + 2) = len f0 + len f1 + len f2 + 2.
Proof.
  rewrite (find_char_at' line p2 f2 (f3 ++ tail) _ _ line_p2);
    [rewrite len_p2; lia | now rewrite len_p2 | exact Hf2].
Qed.

(** The fourth comma, when there is one, closes [f3]. *)
Lemma pos4_eq :
  find_char line "," (len f0 + len f1 + len f2 + 3) =
    match tail with
    | [] => npos
    | _ :: _ => len f0 + len f1 + len f2 + len f3 + 3
    end.
Proof.
  pose proof line_p3 as H3. destruct Htail as [E | [t E]]; rewrite E in *.
  - rewrite app_nil_r in H3.
    apply (find_char_end' line p3 f3 _ _ H3); [now rewrite len_p3 | exact Hf3].
  - rewrite (find_char_at' line p3 f3 t _ _ H3);
      [rewrite len_p3; lia | now rewrite len_p3 | exact Hf3].
Qed.

(** [fromFileString] on a line of at least four fields converts the
    first, third and fourth field and takes the second as the name. *)
Lemma fromFileString_fields (s0 : Student) :
  fromFileString line s0 =
    from_fields f0 f1 f2 f3
      (course_field line (find_char line "," (len f0 + len f1 + len f2 + 3))) s0.
Proof.
  pose proof line_len as HL. pose proof npos_value as Hn.
  pose proof size_modulus_value as Hm.
  pose proof (len_nonneg f0). pose proof (len_nonneg f1).
  pose proof (len_nonneg f2). pose proof (len_nonneg f3).
  pose proof (len_nonneg tail).
  unfold fromFileString. fold (course_field line).
  rewrite pos1_eq.
  replace (len f0 +! 1) with (len f0 + 1) by (size_arith; lia).
  rewrite pos2_eq.
  replace (len f0 + len f1 + 1 +! 1) with (len f0 + len f1 + 2)
    by (size_arith; lia).
  rewrite pos3_eq.
  replace (len f0 + len f1 + len f2 + 2 +! 1) with (len f0 + len f1 + len f2 + 3)
    by (size_arith; lia).
  replace (len f0 + len f1 + 1 -! len f0 -! 1) with (len f1)
    by (size_arith; lia).
  replace (len f0 + len f1 + len f2 + 2 -! (len f0 + len f1 + 1) -! 1)
    with (len f2) by (size_arith; lia).
  rewrite (substr_at' line [] f0 (","%char :: f1 ++ ","%char :: f2 ++ ","%char :: f3 ++ tail)
             0 (len f0)) by reflexivity.
  rewrite (substr_at' line p1 f1 (","%char :: f2 ++ ","%char :: f3 ++ tail)
             (len f0 + 1) (len f1) line_p1) by (trivial; now rewrite len_p1).
  rewrite (substr_at' line p2 f2 (","%char :: f3 ++ tail)
             (len f0 + len f1 + 2) (len f2) line_p2) by (trivial; now rewrite len_p2).
  assert (Hsub3 : substr line (len f0 + len f1 + len f2 + 3)
            (find_char line "," (len f0 + len f1 + len f2 + 3) -!
             (len f0 + len f1 + len f2 + 2) -! 1) = Ok f3).
  { rewrite pos4_eq. pose proof line_p3 as Hl3.
    destruct Htail as [E | [t E]]; rewrite E in *.
    - rewrite app_nil_r in Hl3. apply (substr_rest' line p3 f3 _ _ Hl3);
        [now rewrite len_p3 |].
      rewrite len_nil in HL. size_arith. lia.
    - apply (substr_at' line p3 f3 (","%char :: t) _ _ Hl3);
        [now rewrite len_p3 |].
      rewrite len_cons in HL. pose proof (len_nonneg t). size_arith. lia. }
  rewrite Hsub3. reflexivity.
Qed.
End Fields.

(** ** [fromFileString]: the course field *)

Lemma bind_lift_Ok {St A B} (a : A) (k : A -> M St B) (s : St) :
  bind (lift (Ok a)) k s = k a s.
Proof. reflexivity. Qed.

Lemma bind_modify {St B} (f : St -> St) (k : unit -> M St B) (s : St) :
  bind (modify f) k s = k tt (f s).
Proof. reflexivity. Qed.

Lemma only_courses_refl (s : Student) : only_courses s s.
Proof. repeat split. Qed.

(** The [while] loop ends within the budget [fromFileString] gives it, and
    throws nothing. *)
Lemma courses_loop_total (fuel : nat) (cl : str) (start : Z) (s : Student) :
  len cl < npos ->
  0 <= start <= len cl ->
  (Z.to_nat (len cl - start) < fuel)%nat ->
  exists start' s',
    courses_loop fuel cl start (find_char cl ";" start) s = (Ok start', s') /\
    start <= start' <= len cl /\ only_courses s s'.
Proof.
  intros Hcl. revert start s.
  induction fuel as [| fuel IH]; intros start s Hstart Hfuel; [lia |].
  simpl. destruct (find_char_bounds cl ";" start) as [E | Hb]; [lia | |].
  - rewrite E. change (npos =? npos) with true. cbv iota.
    exists start, s. repeat split; lia.
  - assert (Hne : (find_char cl ";" start =? npos) = false)
      by (apply Z.eqb_neq; lia).
    rewrite Hne.
    destruct (substr_ok cl start (find_char cl ";" start -! start)) as [t Ht];
      [lia |].
    rewrite Ht, bind_lift_Ok, bind_modify.
    pose proof npos_value. pose proof size_modulus_value.
    rewrite (sz_add_small (find_char cl ";" start) 1) by lia.
    destruct (IH (find_char cl ";" start + 1) (addCourse t s)) as (st & s' & Hrun & Hst & Hoc);
      [lia | lia |].
    exists st, s'. repeat split; try apply Hoc; try exact Hrun; lia.
Qed.

(** On courses joined by [";"], none of which holds a [";"], the loop adds
    all but the last and stops in front of the last. *)
Lemma courses_loop_join (cs : list str) (c_last pre : str) (s : Student) (fuel : nat) :
  Forall (fun c => ";"%char ∉ c) cs ->
  ";"%char ∉ c_last ->
  len (pre ++ join (lit ";") (cs ++ [c_last])) < npos ->
  (length cs < fuel)%nat ->
  exists p,
    pre ++ join (lit ";") (cs ++ [c_last]) = p ++ c_last /\
    courses_loop fuel (pre ++ join (lit ";") (cs ++ [c_last])) (len pre)
      (find_char (pre ++ join (lit ";") (cs ++ [c_last])) ";" (len pre)) s =
      (Ok (len p), foldl (fun st c => addCourse c st) s cs).
Proof.
  intros Hcs Hlast. revert pre s fuel.
  induction Hcs as [| c cs Hc Hcs IH]; intros pre s fuel Hlen Hfuel.
  - exists pre. split; [reflexivity |]. simpl app. simpl join.
    rewrite find_char_end by exact Hlast.
    destruct fuel as [| fuel]; [simpl in Hfuel; lia | reflexivity].
  - destruct fuel as [| fuel]; [lia |].
    change ((c :: cs) ++ [c_last]) with (c :: (cs ++ [c_last])) in *.
    rewrite join_cons in *.
    destruct (cs ++ [c_last]) as [| c' rest] eqn:Hrest;
      [now destruct cs |].
    rewrite <- Hrest in *. clear Hrest c' rest.
    set (J := join (lit ";") (cs ++ [c_last])) in *.
    change (lit ";" ++ J) with (";"%char :: J) in *.
    assert (Hline : pre ++ c ++ ";"%char :: J = (pre ++ c ++ [";"%char]) ++ J)
      by now rewrite <- !app_assoc.
    assert (Hpre' : len (pre ++ c ++ [";"%char]) = len pre + len c + 1)
      by (rewrite !len_app, len_cons, len_nil; lia).
    pose proof (len_nonneg pre). pose proof (len_nonneg c). pose proof (len_nonneg J).
    pose proof npos_value. pose proof size_modulus_value.
    assert (HL : len (pre ++ c ++ ";"%char :: J) = len pre + len c + 1 + len J)
      by (rewrite !len_app, len_cons; lia).
    destruct (IH (pre ++ c ++ [";"%char]) (addCourse c s) fuel) as (p & Hp & Hrun);
      [rewrite <- Hline; exact Hlen | simpl in Hfuel; lia |].
    exists p. split; [now rewrite Hline |].
    simpl courses_loop. rewrite find_char_at by exact Hc.
    assert (Hne : (len pre + len c =? npos) = false) by (apply Z.eqb_neq; lia).
    rewrite Hne.
    rewrite (substr_at' _ pre c (";"%char :: J) (len pre) _ eq_refl eq_refl)
      by (size_arith; lia).
    rewrite bind_lift_Ok, bind_modify.
    rewrite (sz_add_small (len pre + len c) 1) by lia.
    rewrite <- Hpre', Hline. exact Hrun.
Qed.

Lemma join_length (cs : list str) (c_last : str) :
  (length cs <= length (join (lit ";") (cs ++ [c_last])))%nat.
Proof.
  induction cs as [| c cs IH]; [simpl; lia |].
  change ((c :: cs) ++ [c_last]) with (c :: (cs ++ [c_last])).
  rewrite join_cons.
  destruct (cs ++ [c_last]) as [| c' rest] eqn:Hrest; [now destruct cs |].
  rewrite <- Hrest in *. rewrite !length_app.
  change (length (lit ";")) with 1%nat. rewrite length_cons. lia.
Qed.

Lemma foldl_addCourse (cs : list str) (s : Student) :
  foldl (fun st c => addCourse c st) s cs = assignCourses (getCourses s ++ cs) s.
Proof.
  revert s. induction cs as [| c cs IH]; intros s; simpl.
  - rewrite app_nil_r. now destruct s.
  - rewrite IH. unfold addCourse, assignCourses. simpl. now rewrite <- app_assoc.
Qed.

(** The course field of a line that ends with joined courses: they are
    read back when the last of them is not empty. *)
Lemma course_field_join (p : str) (courses : list str) (s : Student) :
  Forall (fun c => ";"%char ∉ c) courses ->
  last courses ≠ Some [] ->
  len (p ++ ","%char :: join (lit ";") courses) < npos ->
  course_field (p ++ ","%char :: join (lit ";") courses) (len p) s =
    (Ok tt, assignCourses (getCourses s ++ courses) s).
Proof.
  intros Hsemi Hlast Hlen. unfold course_field.
  pose proof npos_value. pose proof size_modulus_value. pose proof (len_nonneg p).
  set (J := join (lit ";") courses) in *. pose proof (len_nonneg J).
  assert (HL : len (p ++ ","%char :: J) = len p + 1 + len J)
    by (rewrite len_app, len_cons; lia).
  assert (Hne : (len p =? npos) = false) by (apply Z.eqb_neq; lia).
  rewrite Hne, (sz_add_small (len p) 1) by lia. simpl negb. rewrite andb_true_l.
  destruct courses as [| c0 cs0] using rev_ind.
  - subst J. change (join (lit ";") []) with (@nil ascii) in *.
    rewrite len_nil in HL.
    assert (Hge : (len p + 1 <? len (p ++ [","%char])) = false)
      by (apply Z.ltb_ge; lia).
    rewrite Hge. unfold ret. rewrite app_nil_r. now destruct s.
  - clear IHcs0. rewrite last_snoc in Hlast.
    assert (Hc0 : c0 ≠ []) by (intros ->; now apply Hlast).
    apply Forall_app in Hsemi as [Hcs Hc0']. apply Forall_inv in Hc0'.
    assert (HJ : 0 < len J).
    { subst J. destruct (courses_loop_join cs0 c0 [] s (S (length cs0)))
        as (q & Hq & _); [assumption | assumption | | lia |].
      - rewrite app_nil_l. rewrite len_app, len_cons in Hlen.
        pose proof (len_nonneg (join (lit ";") (cs0 ++ [c0]))). lia.
      - rewrite app_nil_l in Hq. rewrite Hq, len_app.
        pose proof (len_nonneg q). destruct c0; [contradiction |].
        rewrite len_cons. pose proof (len_nonneg c0). lia. }
    assert (Hlt : (len p + 1 <? len (p ++ ","%char :: J)) = true)
      by (apply Z.ltb_lt; lia).
    rewrite Hlt.
    rewrite (substr_rest' _ (p ++ [","%char]) J (len p + 1) npos)
      by (rewrite <- ?app_assoc, ?len_app, ?len_cons, ?len_nil; trivial; lia).
    rewrite bind_lift_Ok.
    destruct (courses_loop_join cs0 c0 [] s (S (length J))) as (q & Hq & Hrun).
    + assumption.
    + assumption.
    + rewrite app_nil_l. fold J. lia.
    + subst J. pose proof (join_length cs0 c0). lia.
    + rewrite !app_nil_l in Hq, Hrun. fold J in Hq, Hrun.
      change (len []) with 0 in Hrun.
      unfold bind at 1. rewrite Hrun.
      assert (Hq' : (len q <? len J) = true).
      { apply Z.ltb_lt. rewrite Hq, len_app. destruct c0; [contradiction |].
        rewrite len_cons. pose proof (len_nonneg c0). lia. }
      rewrite Hq'.
      pose proof (f_equal len Hq) as HqL. rewrite len_app in HqL.
      rewrite (substr_rest' J q c0 (len q) npos Hq eq_refl)
        by (pose proof (len_nonneg q); lia).
      rewrite bind_lift_Ok. unfold modify. f_equal.
      rewrite foldl_addCourse. unfold addCourse, assignCourses. simpl.
      now rewrite <- app_assoc.
Qed.

(** ** Round trip *)

Lemma toFileString_fields (r : Student) :
  vsize (getCourses r) < size_modulus ->
  toFileString r =
    fields_line (to_string_int (getId r)) (getName r) (to_string_int (getAge r))
      (to_string_double (getGpa r)) (","%char :: join (lit ";") (getCourses r)).
Proof.
  intros Hsize. rewrite (toFileString_join r Hsize).
  unfold header, fields_line. now rewrite <- !app_assoc.
Qed.

(** Reading back the line written for a record gives the record, whatever
    the object read into held before. *)
Lemma fromFileString_toFileString (r s0 : Student) :
  representable r ->
  ","%char ∉ getName r ->
  Forall (fun c => (","%char ∉ c) /\ (";"%char ∉ c)) (getCourses r) ->
  last (getCourses r) ≠ Some [] ->
  gpa_prints_exactly r ->
  fromFileString (toFileString r) s0 = (Ok tt, r).
Proof.
  intros (Hid & Hage & Hsize & Hlen) Hname Hcourses Hlast Hgpa.
  rewrite toFileString_fields in * by assumption.
  set (f0 := to_string_int (getId r)) in *.
  set (f2 := to_string_int (getAge r)) in *.
  set (f3 := to_string_double (getGpa r)) in *.
  set (J := join (lit ";") (getCourses r)) in *.
  assert (Hf0 : ","%char ∉ f0) by apply to_string_int_no_comma.
  assert (Hf2 : ","%char ∉ f2) by apply to_string_int_no_comma.
  assert (Hf3 : ","%char ∉ f3) by apply to_string_double_no_comma.
  assert (Htail : ","%char :: J = [] \/ exists t, ","%char :: J = ","%char :: t)
    by (right; now exists J).
  rewrite (fromFileString_fields f0 (getName r) f2 f3 _ Hf0 Hname Hf2 Hf3 Htail Hlen).
  rewrite (pos4_eq f0 (getName r) f2 f3 _ Hf3 Htail).
  unfold from_fields. subst f0 f2.
  rewrite !stoi_to_string_int by assumption.
  rewrite bind_lift_Ok, !bind_modify, bind_lift_Ok, bind_modify.
  subst f3. rewrite Hgpa. rewrite bind_lift_Ok, !bind_modify.
  set (f0 := to_string_int (getId r)) in *.
  set (f2 := to_string_int (getAge r)) in *.
  set (f3 := to_string_double (getGpa r)) in *.
  set (p := f0 ++ ","%char :: getName r ++ ","%char :: f2 ++ ","%char :: f3).
  assert (Hp : fields_line f0 (getName r) f2 f3 (","%char :: J) = p ++ ","%char :: J).
  { unfold fields_line, p. repeat (rewrite <- app_assoc; cbn [app]). reflexivity. }
  assert (Hlp : len f0 + len (getName r) + len f2 + len f3 + 3 = len p).
  { unfold p. repeat (rewrite len_app || rewrite len_cons). lia. }
  rewrite Hp in *. rewrite Hlp. subst J.
  rewrite course_field_join.
  - destruct r; reflexivity.
  - eapply Forall_impl; [exact Hcourses |]. now intros c [_ H].
  - exact Hlast.
  - exact Hlen.
Qed.

(** C1 (amended). For a record whose name and courses hold neither [","]
    nor [";"], whose last course (if any) is not the empty text and whose
    gpa is the double its six-decimal text stands for, [fromFileString] of
    [toFileString] gives back the record in all fields. *)
Theorem roundtrip (r s0 : Student) :
  representable r ->
  ","%char ∉ getName r -> ";"%char ∉ getName r ->
  Forall (fun c => (","%char ∉ c) /\ (";"%char ∉ c)) (getCourses r) ->
  last (getCourses r) ≠ Some [] ->
  gpa_prints_exactly r ->
  fromFileString (toFileString r) s0 = (Ok tt, r).
Proof.
  intros Hrep Hname _ Hcourses Hlast Hgpa.
  now apply fromFileString_toFileString.
Qed.

Lemma roundtrip_witness :
  fromFileString
    (toFileString (mkStudent (-7) (lit "Ada Lovelace") 36 d3_7
                     [lit "Math"; []; lit "Analytical Engines"]))
    Student_default =
  (Ok tt, mkStudent (-7) (lit "Ada Lovelace") 36 d3_7
            [lit "Math"; []; lit "Analytical Engines"]).
Proof.
  apply (roundtrip (mkStudent (-7) (lit "Ada Lovelace") 36 d3_7
                      [lit "Math"; []; lit "Analytical Engines"]) Student_default).
  - repeat split; vm_compute; congruence.
  - vm_compute. intros H.
    repeat (apply elem_of_cons in H as [H | H]; [discriminate |]). inversion H.
  - vm_compute. intros H.
    repeat (apply elem_of_cons in H as [H | H]; [discriminate |]). inversion H.
  - repeat constructor; vm_compute; intros H;
      repeat (apply elem_of_cons in H as [H | H]; [discriminate |]); inversion H.
  - vm_compute. discriminate.
  - vm_compute. reflexivity.
Defined.

(** The claim C1 as worded fails on the code: a course that is the empty
    text is dropped when it comes last, and a gpa with more than six
    decimals comes back rounded. *)
Lemma roundtrip_counterexample :
  ((","%char ∉ lit "Alice") /\ (";"%char ∉ lit "Alice") /\
   Forall (fun c : str => (","%char ∉ c) /\ (";"%char ∉ c)) [[]] /\
   fromFileString (toFileString (mkStudent 1 (lit "Alice") 20 d3_7 [[]]))
     Student_default =
     (Ok tt, mkStudent 1 (lit "Alice") 20 d3_7 []) /\
   mkStudent 1 (lit "Alice") 20 d3_7 [] ≠ mkStudent 1 (lit "Alice") 20 d3_7 [[]]) /\
  (is_double (S754_finite false 7033399215113940 (-51)) /\
   toFileString (mkStudent 1 (lit "Alice") 20
                   (S754_finite false 7033399215113940 (-51)) []) =
     lit "1,Alice,20,3.123457," /\
   fromFileString (toFileString (mkStudent 1 (lit "Alice") 20
                     (S754_finite false 7033399215113940 (-51)) []))
     Student_default =
     (Ok tt, mkStudent 1 (lit "Alice") 20
               (S754_finite false 7033399890653884 (-51)) [])).
Proof.
  split.
  - assert (Hno : forall c : ascii, c ∉ ([] : str)) by (intros c H; inversion H).
    repeat split; try (vm_compute; reflexivity); try discriminate.
    + vm_compute. intros H.
      repeat (apply elem_of_cons in H as [H | H]; [discriminate |]). inversion H.
    + vm_compute. intros H.
      repeat (apply elem_of_cons in H as [H | H]; [discriminate |]). inversion H.
    + repeat constructor; apply Hno.
  - repeat split; vm_compute; reflexivity.
Qed.

(** ** Malformed lines *)


Lemma stoi_not_diverge (f : str) : stoi f ≠ Diverge.
Proof.
  unfold stoi. destruct (read_sign (skip_space f)) as [neg t].
  destruct (starts_with_digit t); [| discriminate].
  destruct (in_int_range _); discriminate.
Qed.

Lemma checked_double_not_diverge (neg : bool) (num den : Z) :
  checked_double neg num den ≠ Diverge.
Proof.
  unfold checked_double. destruct (nearest_double neg num den); try discriminate.
  - destruct (num =? 0); discriminate.
  - destruct (_ && _); discriminate.
Qed.

Lemma stod_not_diverge (f : str) : stod f ≠ Diverge.
Proof.
  unfold stod, scaled_binary, scaled_decimal.
  destruct (read_sign (skip_space f)) as [neg t].
  destruct (starts_with_ci (lit "inf") t); [discriminate |].
  destruct (starts_with_ci (lit "nan") t); [discriminate |].
  destruct (read_hex t) as [[[n k] r] |].
  - destruct (0 <=? _); apply checked_double_not_diverge.
  - destruct (read_mantissa read_digits t) as [[[n k] r] |]; [| discriminate].
    destruct (0 <=? _); apply checked_double_not_diverge.
Qed.




(** A character that a text does not hold, by evaluation. *)
Lemma not_in_lit (c : ascii) (s : string) : inb c s = false -> c ∉ lit s.
Proof.
  induction s as [| x s IH]; simpl; [intros _ H; inversion H |].
  intros H Hin. apply orb_false_elim in H as [Hx Hs].
  apply elem_of_cons in Hin as [-> | Hin]; [| now apply IH].
  now rewrite Ascii.eqb_refl in Hx.
Qed.








(** ** Termination of [fromFileString] *)

Lemma substr_cases (s : str) (pos n : Z) :
  (exists t, substr s pos n = Ok t /\ len t <= len s) \/
  substr s pos n = Throw out_of_range.
Proof.
  unfold substr. destruct (len s <? pos); [now right | left].
  eexists. split; [reflexivity |]. unfold len.
  rewrite length_take, length_drop. lia.
Qed.

(** The last block of [fromFileString] always ends, without an exception. *)
Lemma course_field_total (line : str) (pos4 : Z) (s : Student) :
  len line < npos ->
  pos4 = npos \/ 0 <= pos4 < len line ->
  exists s', course_field line pos4 s = (Ok tt, s') /\ only_courses s s'.
Proof.
  intros Hlen Hpos. unfold course_field.
  pose proof npos_value. pose proof size_modulus_value.
  destruct (negb (pos4 =? npos) && (pos4 +! 1 <? len line)) eqn:Hc;
    [| exists s; split; [reflexivity | repeat split]].
  apply andb_prop in Hc as [Hne Hlt]. apply negb_true_iff, Z.eqb_neq in Hne.
  destruct Hpos as [-> | Hpos]; [congruence |].
  rewrite (sz_add_small pos4 1) in * by lia. apply Z.ltb_lt in Hlt.
  destruct (substr_cases line (pos4 + 1) npos) as [(cl & Hcl & Hlcl) | Hthrow].
  2: { unfold substr in Hthrow.
       assert (Hf : (len line <? pos4 + 1) = false) by (apply Z.ltb_ge; lia).
       rewrite Hf in Hthrow. discriminate. }
  rewrite Hcl, bind_lift_Ok.
  destruct (courses_loop_total (S (length cl)) cl 0 s) as (st & s1 & Hrun & Hst & Hoc);
    [lia | pose proof (len_nonneg cl); lia | unfold len; lia |].
  unfold bind at 1. rewrite Hrun.
  destruct (st <? len cl); [| exists s1; split; [reflexivity | exact Hoc]].
  destruct (substr_ok cl st npos) as [c Hsub]; [lia |].
  rewrite Hsub, bind_lift_Ok. unfold modify.
  exists (addCourse c s1). split; [reflexivity | exact Hoc].
Qed.


(** ** [loadFromFile] *)

Lemma read_line_lines (c : ascii) (rest : str) :
  lines (c :: rest) = (read_line (c :: rest)).1 :: lines (read_line (c :: rest)).2.
Proof.
  revert c. induction rest as [| c' rest IH]; intros c; simpl.
  - destruct (Ascii.eqb c "010"); reflexivity.
  - destruct (Ascii.eqb c "010"); [reflexivity |].
    specialize (IH c'). simpl in IH. rewrite IH.
    destruct (Ascii.eqb c' "010"); [reflexivity |].
    now destruct (read_line rest).
Qed.

Lemma read_line_shorter (stream : str) :
  (length (read_line stream).2 <= length stream)%nat.
Proof.
  induction stream as [| c rest IH]; simpl; [lia |].
  destruct (Ascii.eqb c "010"); simpl; [lia |].
  destruct (read_line rest). simpl in *. lia.
Qed.

Lemma read_line_consumes (c : ascii) (rest : str) :
  (length (read_line (c :: rest)).2 <= length rest)%nat.
Proof.
  simpl. destruct (Ascii.eqb c "010"); simpl; [lia |].
  pose proof (read_line_shorter rest). now destruct (read_line rest).
Qed.

(** The loop appends, in file order, one record per non-empty line. *)
Lemma load_loop_appends (fuel : nat) (stream : str) (recs : list Student)
    (m : StudentManager) :
  (length stream < fuel)%nat ->
  reads_as stream recs ->
  load_loop fuel stream m = (Ok tt, setStudents (students m ++ recs) m).
Proof.
  unfold reads_as. revert stream recs m.
  induction fuel as [| fuel IH]; intros stream recs m Hfuel Hrecs; [lia |].
  destruct stream as [| c rest].
  - simpl in *. inversion Hrecs. rewrite app_nil_r. now destruct m.
  - rewrite read_line_lines in Hrecs.
    pose proof (read_line_consumes c rest) as Hshort.
    cbn [load_loop getline].
    destruct (read_line (c :: rest)) as [line stream'] eqn:Hrl.
    cbn [fst snd] in *. simpl length in Hfuel, Hshort.
    destruct line as [| c0 line].
    + rewrite filter_cons_False in Hrecs by (intros H; now apply H).
      change (len [] =? 0) with true. cbn [negb]. unfold bind at 1, ret at 1.
      apply IH; [lia | exact Hrecs].
    + rewrite filter_cons_True in Hrecs by discriminate.
      inversion Hrecs as [| l0 r ls rs Hr Hrest]; subst.
      assert (Hnz : (len (c0 :: line) =? 0) = false).
      { apply Z.eqb_neq. rewrite len_cons. pose proof (len_nonneg line). lia. }
      rewrite Hnz. cbn [negb]. rewrite Hr.
      unfold bind at 1. unfold bind at 1. unfold lift at 1. unfold modify at 1.
      rewrite (IH stream' rs (push_back r m)) by (trivial; lia).
      unfold push_back, setStudents. simpl. now rewrite <- app_assoc.
Qed.

(** C8 (amended). With no file at the path, [loadFromFile] leaves the
    roster as it is and writes nothing; a manager built on such a path has
    no record. With a file, the roster is emptied and then holds, in file
    order, one record per non-empty line, provided each such line is read
    without an exception. *)
Theorem loadFromFile_spec (fs : FileSystem) (m : StudentManager) :
  (fs !! filename m = None ->
   loadFromFile fs m = (Ok [], m) /\
   StudentManager_new fs (filename m) = (Ok [], mkManager [] (filename m))) /\
  (forall content recs,
     fs !! filename m = Some content ->
     reads_as content recs ->
     loadFromFile fs m =
       (Ok [Text (lit "Loaded " ++ to_string_nat (vsize recs) ++
                  lit " students from " ++ filename m ++ endl)],
        setStudents recs m)).
Proof.
  split.
  - intros Hnone. unfold StudentManager_new, loadFromFile. simpl filename.
    now rewrite Hnone.
  - intros content recs Hsome Hrecs. unfold loadFromFile. rewrite Hsome.
    rewrite bind_modify. unfold bind at 1.
    rewrite (load_loop_appends _ content recs) by (trivial; lia).
    reflexivity.
Qed.

Lemma loadFromFile_spec_witness :
  loadFromFile ∅ (mkManager [] (lit "students.txt")) =
    (Ok [], mkManager [] (lit "students.txt")) /\
  loadFromFile
    {[ lit "students.txt" :=
         lit "1,Alice,20,3.700000,Math;Art" ++ endl ++ endl ++
         lit "2,Bob,31,2.000000," ++ endl ]}
    (mkManager [Student_new 9 (lit "Old") 50 d1_0] (lit "students.txt")) =
    (Ok [Text (lit "Loaded 2 students from students.txt" ++ endl)],
     mkManager [mkStudent 1 (lit "Alice") 20 d3_7 [lit "Math"; lit "Art"];
                mkStudent 2 (lit "Bob") 31 d2_0 []] (lit "students.txt")).
Proof.
  split.
  - apply (loadFromFile_spec ∅ (mkManager [] (lit "students.txt"))).
    apply lookup_empty.
  - etransitivity.
    + apply (proj2 (loadFromFile_spec _
               (mkManager [Student_new 9 (lit "Old") 50 d1_0] (lit "students.txt")))
               (lit "1,Alice,20,3.700000,Math;Art" ++ endl ++ endl ++
                lit "2,Bob,31,2.000000," ++ endl)
               [mkStudent 1 (lit "Alice") 20 d3_7 [lit "Math"; lit "Art"];
                mkStudent 2 (lit "Bob") 31 d2_0 []]).
      * apply lookup_singleton_eq.
      * unfold reads_as.
        match goal with
        | |- context [lines ?c] =>
            let ls := eval vm_compute in (lines c) in
            change (lines c) with ls
        end.
        rewrite filter_cons_True by discriminate.
        rewrite filter_cons_False by (intros H; now apply H).
        rewrite filter_cons_True by discriminate.
        apply List.Forall2_cons; [vm_compute; reflexivity |].
        apply List.Forall2_cons; [vm_compute; reflexivity |].
        apply List.Forall2_nil.
    + vm_compute. reflexivity.
Defined.

(** The claim C8 as worded fails on the code: a roster that holds a record
    (added after a start without a file) still holds it after a load from
    the missing file; and a line of white space only is not skipped, it is
    handed to [fromFileString], whose exception ends the load. *)
Lemma loadFromFile_missing_file_keeps_roster :
  ((∅ : FileSystem) !! lit "students.txt" = None /\
   (StudentManager_new ∅ (lit "students.txt")).2 = mkManager [] (lit "students.txt") /\
   (addStudent 1 (lit "Alice") 20 d3_7 (mkManager [] (lit "students.txt"))).2 =
     mkManager [Student_new 1 (lit "Alice") 20 d3_7] (lit "students.txt") /\
   loadFromFile ∅ (mkManager [Student_new 1 (lit "Alice") 20 d3_7] (lit "students.txt")) =
     (Ok [], mkManager [Student_new 1 (lit "Alice") 20 d3_7] (lit "students.txt")) /\
   length (students (loadFromFile ∅
             (mkManager [Student_new 1 (lit "Alice") 20 d3_7] (lit "students.txt"))).2)
     ≠ 0%nat) /\
  loadFromFile {[ lit "students.txt" := lit "1,Alice,20,3.7" ++ endl ++ lit "  " ++ endl ]}
    (mkManager [] (lit "students.txt")) =
    (Throw invalid_argument,
     mkManager [Student_new 1 (lit "Alice") 20 d3_7] (lit "students.txt")).
Proof.
  split.
  - assert (H : (∅ : FileSystem) !! lit "students.txt" = None) by apply lookup_empty.
    unfold StudentManager_new, loadFromFile. simpl filename. rewrite H.
    repeat split. simpl. discriminate.
  - unfold loadFromFile. simpl filename. rewrite lookup_singleton_eq.
    vm_compute. reflexivity.
Qed.

(** ** Termination of [loadFromFile] *)




(** ** Exceptions: which lines are refused, and what a refused line does
    to a load *)

(** X12. On a line of at least four fields, [fromFileString] throws exactly
    when one of the three conversions does: the name and the courses are
    never a reason to refuse a line. *)
Lemma fromFileString_throws_iff (f0 f1 f2 f3 tail : str) (s0 : Student) :
  ","%char ∉ f0 -> ","%char ∉ f1 -> ","%char ∉ f2 -> ","%char ∉ f3 ->
  tail = [] \/ (exists t, tail = ","%char :: t) ->
  len (fields_line f0 f1 f2 f3 tail) < npos ->
  is_throw (fromFileString (fields_line f0 f1 f2 f3 tail) s0).1 = true <->
  is_throw (stoi f0) = true \/ is_throw (stoi f2) = true \/ is_throw (stod f3) = true.
Proof.
  intros Hf0 Hf1 Hf2 Hf3 Htail Hlen.
  rewrite (fromFileString_fields f0 f1 f2 f3 tail Hf0 Hf1 Hf2 Hf3 Htail Hlen).
  unfold from_fields.
  destruct (stoi f0) as [id | e |] eqn:E0;
    [| simpl; tauto | now apply stoi_not_diverge in E0].
  rewrite bind_lift_Ok, !bind_modify.
  destruct (stoi f2) as [age | e |] eqn:E2;
    [| simpl; tauto | now apply stoi_not_diverge in E2].
  rewrite bind_lift_Ok, bind_modify.
  destruct (stod f3) as [gpa | e |] eqn:E3;
    [| simpl; tauto | now apply stod_not_diverge in E3].
  rewrite bind_lift_Ok, !bind_modify.
  match goal with
  | |- context [course_field ?l ?p ?s] =>
      destruct (course_field_total l p s Hlen) as (s' & -> & _)
  end.
  - pose proof (len_nonneg f0). pose proof (len_nonneg f1). pose proof (len_nonneg f2).
    destruct (find_char_bounds (fields_line f0 f1 f2 f3 tail) ","
                (len f0 + len f1 + len f2 + 3)) as [E | Hb];
      [lia | now left | right; lia].
  - simpl. split; [discriminate | intros [H | [H | H]]; discriminate].
Qed.

(** When a non-empty line is refused, the loop stops there: the exception
    leaves it, with the records of the lines before in the roster. *)
Lemma load_loop_throws (fuel : nat) (stream : str) (before after : list str)
    (bad : str) (e : exn) (partial : Student) (recs : list Student)
    (m : StudentManager) :
  (length stream < fuel)%nat ->
  lines stream = before ++ bad :: after ->
  Forall2 (fun line r => fromFileString line Student_default = (Ok tt, r))
    (filter (fun l => l ≠ []) before) recs ->
  bad ≠ [] ->
  fromFileString bad Student_default = (Throw e, partial) ->
  load_loop fuel stream m = (Throw e, setStudents (students m ++ recs) m).
Proof.
  intros Hfuel Hlines Hrecs Hbad Hthrow. revert stream before recs m Hfuel Hlines Hrecs.
  induction fuel as [| fuel IH]; intros stream before recs m Hfuel Hlines Hrecs; [lia |].
  destruct stream as [| c rest]; [now destruct before |].
  rewrite read_line_lines in Hlines.
  pose proof (read_line_consumes c rest) as Hshort.
  cbn [load_loop getline].
  destruct (read_line (c :: rest)) as [line stream'] eqn:Hrl.
  cbn [fst snd] in *. simpl length in Hfuel.
  destruct before as [| l before].
  - simpl in Hlines. injection Hlines as -> Hafter.
    simpl in Hrecs. inversion Hrecs; subst.
    assert (Hnz : (len bad =? 0) = false).
    { apply Z.eqb_neq. destruct bad; [contradiction |]. rewrite len_cons.
      pose proof (len_nonneg bad). lia. }
    rewrite Hnz, Hthrow. cbn [negb]. rewrite app_nil_r. now destruct m.
  - simpl in Hlines. injection Hlines as -> Hafter.
    destruct l as [| c0 l].
    + rewrite filter_cons_False in Hrecs by (intros H; now apply H).
      change (len [] =? 0) with true. cbn [negb]. unfold bind at 1, ret at 1.
      apply (IH stream' before); [lia | exact Hafter | exact Hrecs].
    + rewrite filter_cons_True in Hrecs by discriminate.
      inversion Hrecs as [| l0 r ls rs Hr Hrest]; subst.
      assert (Hnz : (len (c0 :: l) =? 0) = false).
      { apply Z.eqb_neq. rewrite len_cons. pose proof (len_nonneg l). lia. }
      rewrite Hnz. cbn [negb]. rewrite Hr.
      unfold bind at 1. unfold bind at 1. unfold lift at 1. unfold modify at 1.
      rewrite (IH stream' before rs (push_back r m)) by (trivial; lia).
      unfold push_back, setStudents. simpl. now rewrite <- app_assoc.
Qed.

(** X13. A refused line ends [loadFromFile] by its exception: nothing is
    written to [cout], the records the roster held before are gone, and it
    holds the records of the lines before the refused one. *)
Lemma loadFromFile_throws (fs : FileSystem) (m : StudentManager) (content : str)
    (before after : list str) (bad : str) (e : exn) (partial : Student)
    (recs : list Student) :
  fs !! filename m = Some content ->
  lines content = before ++ bad :: after ->
  Forall2 (fun line r => fromFileString line Student_default = (Ok tt, r))
    (filter (fun l => l ≠ []) before) recs ->
  bad ≠ [] ->
  fromFileString bad Student_default = (Throw e, partial) ->
  loadFromFile fs m = (Throw e, setStudents recs m).
Proof.
  intros Hfile Hlines Hrecs Hbad Hthrow. unfold loadFromFile. rewrite Hfile.
  rewrite bind_modify. unfold bind at 1.
  rewrite (load_loop_throws _ content before after bad e partial recs)
    by (trivial; lia).
  reflexivity.
Qed.

(** * Further properties of the two classes *)

(** ** Search by id, and how create, delete and search compose *)

Lemma list_find_cons_elt {A} (P : A -> Prop) `{forall x, Decision (P x)}
    (x : A) (l : list A) :
  snd <$> list_find P (x :: l) =
    if decide (P x) then Some x else snd <$> list_find P l.
Proof.
  cbn [list_find]. destruct (decide (P x)); [reflexivity |].
  destruct (list_find P l) as [[i y] |]; reflexivity.
Qed.

Lemma list_find_app_elt {A} (P : A -> Prop) `{forall x, Decision (P x)}
    (l1 l2 : list A) :
  snd <$> list_find P (l1 ++ l2) =
    match snd <$> list_find P l1 with
    | Some x => Some x
    | None => snd <$> list_find P l2
    end.
Proof.
  induction l1 as [| x l1 IH]; [reflexivity |].
  change ((x :: l1) ++ l2) with (x :: (l1 ++ l2)).
  rewrite !list_find_cons_elt. destruct (decide (P x)); [reflexivity | exact IH].
Qed.

(** What the search by id writes depends on the record found only. *)
Lemma searchStudent_by_id (id : Z) (name : str) (m : StudentManager) :
  searchStudent 1 id name m =
    [Text (endl ++ lit "=== Search Student ===" ++ endl);
     Text (lit "1. Search by ID" ++ endl);
     Text (lit "2. Search by Name" ++ endl);
     Text (lit "Choose option: ");
     Text (lit "Enter student ID: ")] ++
    match snd <$> findStudentById id m with
    | Some student => [FullInfo student]
    | None => [Text (lit "Student with ID " ++ to_string_int id ++
                     lit " not found!" ++ endl)]
    end.
Proof.
  unfold searchStudent. change (1 =? 1) with true. cbv iota.
  destruct (findStudentById id m) as [[i s] |]; reflexivity.
Qed.

Lemma find_elt_first (id : Z) (l1 l2 : list Student) (s : Student) :
  getId s = id -> Forall (fun x => getId x ≠ id) l1 ->
  snd <$> list_find (fun x => getId x = id) (l1 ++ s :: l2) = Some s.
Proof.
  intros Hid Hl1. rewrite list_find_app_elt.
  assert (Hnone : list_find (fun x => getId x = id) l1 = None)
    by now apply list_find_None.
  rewrite list_find_cons_elt, Hnone.
  now destruct (decide (getId s = id)).
Qed.

Lemma find_elt_none (id : Z) (l : list Student) :
  id ∉ getId <$> l -> snd <$> list_find (fun x => getId x = id) l = None.
Proof.
  intros Hnot.
  assert (Hnone : list_find (fun x => getId x = id) l = None).
  { apply list_find_None, Forall_forall. intros x Hx Hid. apply Hnot.
    apply list_elem_of_fmap. now exists x. }
  now rewrite Hnone.
Qed.

(** X1. The search by id shows one record, the first of the roster that
    has the id, and the "not found" message when no record has it. *)
Theorem search_by_id_shows_first (id : Z) (name : str) (m : StudentManager) :
  (forall l1 s l2,
     students m = l1 ++ s :: l2 -> getId s = id ->
     Forall (fun x => getId x ≠ id) l1 ->
     shown (searchStudent 1 id name m) = [s] /\
     last (searchStudent 1 id name m) = Some (FullInfo s)) /\
  (id ∉ getId <$> students m ->
   shown (searchStudent 1 id name m) = [] /\
   last (searchStudent 1 id name m) =
     Some (Text (lit "Student with ID " ++ to_string_int id ++
                 lit " not found!" ++ endl))).
Proof.
  rewrite searchStudent_by_id. unfold findStudentById. split.
  - intros l1 s l2 Hsplit Hid Hl1. rewrite Hsplit.
    rewrite (find_elt_first id l1 l2 s Hid Hl1). split; reflexivity.
  - intros Hnot. rewrite (find_elt_none id _ Hnot). split; reflexivity.
Qed.

Lemma search_by_id_shows_first_witness :
  shown (searchStudent 1 2 []
           (mkManager [Student_new 1 (lit "Alice") 20 d3_7;
                       Student_new 2 (lit "Bob") 30 d2_0;
                       Student_new 2 (lit "Bo") 31 d1_0] (lit "students.txt"))) =
    [Student_new 2 (lit "Bob") 30 d2_0] /\
  shown (searchStudent 1 5 []
           (mkManager [Student_new 1 (lit "Alice") 20 d3_7] (lit "students.txt"))) = [].
Proof.
  split.
  - apply (proj1 (search_by_id_shows_first 2 []
             (mkManager [Student_new 1 (lit "Alice") 20 d3_7;
                         Student_new 2 (lit "Bob") 30 d2_0;
                         Student_new 2 (lit "Bo") 31 d1_0] (lit "students.txt")))
             [Student_new 1 (lit "Alice") 20 d3_7] (Student_new 2 (lit "Bob") 30 d2_0)
             [Student_new 2 (lit "Bo") 31 d1_0]).
    + reflexivity.
    + reflexivity.
    + repeat constructor. simpl. discriminate.
  - apply (proj2 (search_by_id_shows_first 5 []
             (mkManager [Student_new 1 (lit "Alice") 20 d3_7] (lit "students.txt")))).
    simpl. intros H. apply list_elem_of_singleton in H. discriminate.
Defined.

(** X2. After a student was added under a fresh id, the search by that id
    shows the new record, and the search by any other id shows what it
    showed before. *)
Theorem addStudent_then_search (id : Z) (name : str) (age : Z) (gpa : double)
    (m : StudentManager) (asked : str) :
  id ∉ getId <$> students m ->
  shown (searchStudent 1 id asked (addStudent id name age gpa m).2) =
    [Student_new id name age gpa] /\
  (forall id', id' ≠ id ->
     searchStudent 1 id' asked (addStudent id name age gpa m).2 =
     searchStudent 1 id' asked m).
Proof.
  intros Hfresh. unfold addStudent.
  rewrite (proj2 (findStudentById_None id m) Hfresh). cbn [snd].
  split.
  - rewrite searchStudent_by_id. unfold findStudentById, push_back. simpl students.
    rewrite list_find_app_elt, (find_elt_none id _ Hfresh).
    rewrite list_find_cons_elt. simpl. now destruct (decide (id = id)).
  - intros id' Hne. rewrite !searchStudent_by_id.
    unfold findStudentById, push_back. simpl students.
    rewrite list_find_app_elt.
    destruct (snd <$> list_find (fun s => getId s = id') (students m)); [reflexivity |].
    rewrite list_find_cons_elt. simpl.
    destruct (decide (id = id')); [congruence | reflexivity].
Qed.

Lemma addStudent_then_search_witness :
  shown (searchStudent 1 2 []
           (addStudent 2 (lit "Bob") 30 d2_0
              (mkManager [Student_new 1 (lit "Alice") 20 d3_7] (lit "students.txt"))).2) =
    [Student_new 2 (lit "Bob") 30 d2_0].
Proof.
  apply (addStudent_then_search 2 (lit "Bob") 30 d2_0
           (mkManager [Student_new 1 (lit "Alice") 20 d3_7] (lit "students.txt")) []).
  simpl. intros H. apply list_elem_of_singleton in H. discriminate.
Defined.

(** X3. Removing the student just added under a fresh id gives back the
    manager as it was before the addition. *)
Theorem addStudent_then_removeStudent (id : Z) (name : str) (age : Z) (gpa : double)
    (m : StudentManager) :
  id ∉ getId <$> students m ->
  (removeStudent id (addStudent id name age gpa m).2).2 = m.
Proof.
  intros Hfresh. unfold addStudent.
  rewrite (proj2 (findStudentById_None id m) Hfresh). cbn [snd].
  unfold removeStudent.
  assert (Hfind : findStudentById id (push_back (Student_new id name age gpa) m) =
                  Some (length (students m), Student_new id name age gpa)).
  { unfold findStudentById, push_back. simpl students.
    apply list_find_Some. split; [| split].
    - now rewrite lookup_app_r, Nat.sub_diag by lia.
    - reflexivity.
    - intros j y Hj Hlt Hy. rewrite lookup_app_l in Hj by lia.
      apply Hfresh. apply list_elem_of_fmap. exists y. split; [now symmetry |].
      eapply list_elem_of_lookup_2. exact Hj. }
  rewrite Hfind. cbn [snd]. unfold push_back, setStudents. simpl.
  rewrite (delete_middle (students m) [] _), app_nil_r. now destruct m.
Qed.

Lemma addStudent_then_removeStudent_witness :
  (removeStudent 2
     (addStudent 2 (lit "Bob") 30 d2_0
        (mkManager [Student_new 1 (lit "Alice") 20 d3_7] (lit "students.txt"))).2).2 =
    mkManager [Student_new 1 (lit "Alice") 20 d3_7] (lit "students.txt").
Proof.
  apply (addStudent_then_removeStudent 2 (lit "Bob") 30 d2_0
           (mkManager [Student_new 1 (lit "Alice") 20 d3_7] (lit "students.txt"))).
  simpl. intros H. apply list_elem_of_singleton in H. discriminate.
Defined.

Lemma findStudentById_first (id : Z) (m : StudentManager) (l1 l2 : list Student)
    (s : Student) :
  students m = l1 ++ s :: l2 -> getId s = id ->
  Forall (fun x => getId x ≠ id) l1 ->
  findStudentById id m = Some (length l1, s).
Proof.
  intros Hsplit Hid Hl1. unfold findStudentById. rewrite Hsplit.
  apply list_find_Some. split; [| split].
  - now rewrite lookup_app_r, Nat.sub_diag by lia.
  - exact Hid.
  - intros j y Hj Hlt Hy. rewrite lookup_app_l in Hj by lia.
    rewrite Forall_forall in Hl1. apply (Hl1 y); [| exact Hy].
    eapply list_elem_of_lookup_2. exact Hj.
Qed.

(** X4. When the ids of the roster are pairwise distinct, a removed id is
    gone: the search by it shows nothing afterwards, the ids are still
    pairwise distinct, and (always) the search by any other id writes what
    it wrote before. *)
Theorem removeStudent_then_search (id : Z) (m : StudentManager) (asked : str) :
  NoDup (getId <$> students m) ->
  (id ∉ getId <$> students (removeStudent id m).2) /\
  shown (searchStudent 1 id asked (removeStudent id m).2) = [] /\
  NoDup (getId <$> students (removeStudent id m).2) /\
  (forall id', id' ≠ id ->
     searchStudent 1 id' asked (removeStudent id m).2 =
     searchStudent 1 id' asked m).
Proof.
  intros Hnodup. unfold removeStudent.
  destruct (findStudentById id m) as [[i s] |] eqn:Hfind; cbn [snd].
  - apply findStudentById_Some in Hfind as (Hsplit & Hid & Hbefore).
    set (l1 := take i (students m)) in *. set (l2 := drop (S i) (students m)) in *.
    assert (Hdel : delete i (students m) = l1 ++ l2) by apply delete_take_drop.
    rewrite Hsplit, fmap_app, fmap_cons in Hnodup.
    apply NoDup_app in Hnodup as (Hn1 & Hdisj & Hn2).
    apply NoDup_cons in Hn2 as (Hnot2 & Hn2).
    assert (Hgone : id ∉ getId <$> l1 ++ l2).
    { rewrite fmap_app, elem_of_app. intros [Hin | Hin].
      - apply list_elem_of_fmap in Hin as (x & Hx & Hin).
        rewrite Forall_forall in Hbefore. now apply (Hbefore x Hin).
      - apply Hnot2. now rewrite Hid. }
    simpl students. rewrite Hdel. split; [exact Hgone |]. split; [| split].
    + rewrite searchStudent_by_id. unfold findStudentById. simpl students.
      now rewrite (find_elt_none id _ Hgone).
    + rewrite fmap_app. apply NoDup_app. split; [exact Hn1 |]. split; [| exact Hn2].
      intros x Hx1 Hx2. apply (Hdisj x Hx1). now right.
    + intros id' Hne. rewrite !searchStudent_by_id. unfold findStudentById.
      simpl students. rewrite Hsplit, !list_find_app_elt, list_find_cons_elt.
      destruct (decide (getId s = id')); [congruence | reflexivity].
  - apply findStudentById_None in Hfind. split; [exact Hfind |]. split; [| split].
    + rewrite searchStudent_by_id. unfold findStudentById.
      now rewrite (find_elt_none id _ Hfind).
    + exact Hnodup.
    + reflexivity.
Qed.

Lemma removeStudent_then_search_witness :
  shown (searchStudent 1 2 []
           (removeStudent 2
              (mkManager [Student_new 1 (lit "Alice") 20 d3_7;
                          Student_new 2 (lit "Bob") 30 d2_0] (lit "students.txt"))).2) = [].
Proof.
  apply (removeStudent_then_search 2
           (mkManager [Student_new 1 (lit "Alice") 20 d3_7;
                       Student_new 2 (lit "Bob") 30 d2_0] (lit "students.txt")) []).
  simpl. apply NoDup_cons. split.
  - intros H. apply list_elem_of_singleton in H. discriminate.
  - apply NoDup_singleton.
Defined.

(** ** [removeCourse] and [addCourse] *)

Lemma removeCourse_eq (course : str) (s : Student) :
  removeCourse course s =
    assignCourses (filter (fun c => c ≠ course) (getCourses s)) s.
Proof.
  pose proof (removeCourse_courses course s) as H. unfold removeCourse in *.
  destruct (std_remove (getCourses s) course) as [new_end v].
  unfold assignCourses in *. simpl in H. now rewrite H.
Qed.

Lemma filter_absent (course : str) (l : list str) :
  course ∉ l -> filter (fun c => c ≠ course) l = l.
Proof.
  induction l as [| x l IH]; [reflexivity |]. intros Hnot.
  apply not_elem_of_cons in Hnot as [Hne Hnot].
  rewrite filter_cons, decide_True by congruence. now rewrite IH.
Qed.

(** X5. [removeCourse] as an operation on records: the course is absent
    afterwards; a second removal changes nothing; two removals commute;
    it undoes an [addCourse] of a course that was absent; it commutes with
    the [addCourse] of another course; it never lengthens the list. *)
Theorem removeCourse_algebra (a b : str) (s : Student) :
  (a ∉ getCourses (removeCourse a s)) /\
  removeCourse a (removeCourse a s) = removeCourse a s /\
  removeCourse a (removeCourse b s) = removeCourse b (removeCourse a s) /\
  (a ∉ getCourses s -> removeCourse a (addCourse a s) = s) /\
  (a ≠ b -> removeCourse a (addCourse b s) = addCourse b (removeCourse a s)) /\
  (length (getCourses (removeCourse a s)) <= length (getCourses s))%nat.
Proof.
  rewrite !removeCourse_eq. unfold addCourse, assignCourses. simpl.
  split; [| split; [| split; [| split; [| split]]]].
  - intros Hin. apply list_elem_of_filter in Hin as [Hne _]. now apply Hne.
  - f_equal. rewrite list_filter_filter. apply list_filter_iff. tauto.
  - f_equal. rewrite !list_filter_filter. apply list_filter_iff. tauto.
  - intros Hnot. rewrite filter_app, (filter_absent a _ Hnot), filter_cons.
    rewrite decide_False by tauto. rewrite filter_nil, app_nil_r. now destruct s.
  - intros Hne. f_equal. rewrite filter_app, filter_cons.
    rewrite decide_True by congruence. reflexivity.
  - apply length_filter.
Qed.

Lemma removeCourse_algebra_witness :
  removeCourse (lit "Math")
    (addCourse (lit "Math") (addCourse (lit "Art") (Student_new 1 (lit "Al") 20 d3_7))) =
  addCourse (lit "Art") (Student_new 1 (lit "Al") 20 d3_7).
Proof.
  apply (proj1 (proj2 (proj2 (proj2
           (removeCourse_algebra (lit "Math") (lit "Art")
              (addCourse (lit "Art") (Student_new 1 (lit "Al") 20 d3_7))))))).
  simpl. intros H. apply list_elem_of_singleton in H. discriminate.
Defined.

(** ** [manageCourses] *)

Lemma getId_addCourse (c : str) (s : Student) : getId (addCourse c s) = getId s.
Proof. reflexivity. Qed.

Lemma getId_removeCourse (c : str) (s : Student) : getId (removeCourse c s) = getId s.
Proof. now rewrite removeCourse_eq. Qed.

Lemma alter_first {A} (f : A -> A) (l1 l2 : list A) (x : A) :
  alter f (length l1) (l1 ++ x :: l2) = l1 ++ f x :: l2.
Proof.
  replace (length l1) with (length l1 + 0)%nat by lia.
  now rewrite alter_app_r.
Qed.

(** X6. [manageCourses] never changes the ids, their order or the file
    name; with an id that no record has it changes nothing and ends on
    "Student not found!"; otherwise option 1 adds the course to the first
    record that has the id, in place, option 2 removes the course from it
    (and reports success even when the course was absent), option 3 shows
    that record, and all other records stay as they are. *)
Theorem manageCourses_first_record (id choice : Z) (course : str)
    (m : StudentManager) :
  getId <$> students (manageCourses id choice course m).2 = getId <$> students m /\
  filename (manageCourses id choice course m).2 = filename m /\
  (id ∉ getId <$> students m ->
   (manageCourses id choice course m).2 = m /\
   last (manageCourses id choice course m).1 =
     Some (Text (lit "Student not found!" ++ endl))) /\
  (forall l1 s l2,
     students m = l1 ++ s :: l2 -> getId s = id ->
     Forall (fun x => getId x ≠ id) l1 ->
     students (manageCourses id 1 course m).2 = l1 ++ addCourse course s :: l2 /\
     students (manageCourses id 2 course m).2 = l1 ++ removeCourse course s :: l2 /\
     last (manageCourses id 2 course m).1 =
       Some (Text (lit "Course removed successfully!" ++ endl)) /\
     shown (manageCourses id 3 course m).1 = [s] /\
     (manageCourses id 3 course m).2 = m).
Proof.
  split; [| split; [| split]].
  - unfold manageCourses. destruct (findStudentById id m) as [[i s] |]; [| reflexivity].
    destruct (choice =? 1); [| destruct (choice =? 2); [| now destruct (choice =? 3)]].
    + simpl. rewrite (list_fmap_alter getId (addCourse course) (fun z => z)).
      * now apply list_alter_id.
      * apply Forall_forall. intros x _. apply getId_addCourse.
    + simpl. rewrite (list_fmap_alter getId (removeCourse course) (fun z => z)).
      * now apply list_alter_id.
      * apply Forall_forall. intros x _. apply getId_removeCourse.
  - unfold manageCourses. destruct (findStudentById id m) as [[i s] |]; [| reflexivity].
    destruct (choice =? 1); [reflexivity |].
    destruct (choice =? 2); [reflexivity |]. now destruct (choice =? 3).
  - intros Hnot. unfold manageCourses.
    rewrite (proj2 (findStudentById_None id m) Hnot). split; reflexivity.
  - intros l1 s l2 Hsplit Hid Hl1. unfold manageCourses.
    rewrite (findStudentById_first id m l1 l2 s Hsplit Hid Hl1).
    change (1 =? 1) with true. change (2 =? 1) with false.
    change (2 =? 2) with true. change (3 =? 1) with false.
    change (3 =? 2) with false. change (3 =? 3) with true. cbv iota.
    cbn [fst snd]. simpl students. rewrite Hsplit, !alter_first.
    split; [reflexivity |]. split; [reflexivity |]. split; [| split; reflexivity].
    now rewrite last_app.
Qed.

Lemma manageCourses_first_record_witness :
  students
    (manageCourses 2 1 (lit "Math")
       (mkManager [Student_new 1 (lit "Alice") 20 d3_7;
                   Student_new 2 (lit "Bob") 30 d2_0;
                   Student_new 2 (lit "Bo") 31 d1_0] (lit "students.txt"))).2 =
    [Student_new 1 (lit "Alice") 20 d3_7;
     addCourse (lit "Math") (Student_new 2 (lit "Bob") 30 d2_0);
     Student_new 2 (lit "Bo") 31 d1_0] /\
  (manageCourses 5 2 (lit "Math")
     (mkManager [Student_new 1 (lit "Alice") 20 d3_7] (lit "students.txt"))).2 =
    mkManager [Student_new 1 (lit "Alice") 20 d3_7] (lit "students.txt").
Proof.
  split.
  - apply (proj2 (proj2 (proj2 (manageCourses_first_record 2 1 (lit "Math")
             (mkManager [Student_new 1 (lit "Alice") 20 d3_7;
                         Student_new 2 (lit "Bob") 30 d2_0;
                         Student_new 2 (lit "Bo") 31 d1_0] (lit "students.txt")))))
             [Student_new 1 (lit "Alice") 20 d3_7] (Student_new 2 (lit "Bob") 30 d2_0)
             [Student_new 2 (lit "Bo") 31 d1_0]).
    + reflexivity.
    + reflexivity.
    + repeat constructor. simpl. discriminate.
  - apply (proj1 (proj2 (proj2 (manageCourses_first_record 5 2 (lit "Math")
             (mkManager [Student_new 1 (lit "Alice") 20 d3_7] (lit "students.txt")))))).
    simpl. intros H. apply list_elem_of_singleton in H. discriminate.
Defined.

(** ** Grades *)

(** The comparison of doubles is transitive (on every pair of values, NaN
    included: a NaN compares with nothing). *)
Lemma SFleb_trans (x y z : double) :
  SFleb x y = true -> SFleb y z = true -> SFleb x z = true.
Proof.
  unfold SFleb, SFcompare.
  destruct x as [sx | sx | | sx mx ex], y as [sy | sy | | sy my ey],
    z as [sz | sz | | sz mz ez];
    try discriminate; try reflexivity;
    try destruct sx; try destruct sy; try destruct sz;
    try discriminate; try reflexivity;
    change (Pos.compare_cont Eq mx my) with (Pos.compare mx my);
    change (Pos.compare_cont Eq my mz) with (Pos.compare my mz);
    change (Pos.compare_cont Eq mx mz) with (Pos.compare mx mz);
    destruct (Z.compare_spec ex ey), (Z.compare_spec ey ez), (Z.compare_spec ex ez);
    try lia; try discriminate; try reflexivity;
    destruct (Pos.compare_spec mx my), (Pos.compare_spec my mz),
      (Pos.compare_spec mx mz);
    simpl; try lia; try discriminate; try reflexivity.
Qed.

(** X7. The grade letter never goes down when the gpa goes up; a grade "A"
    makes an honor student; a gpa that is not a number gets the grade "F"
    and is not an honor student. *)
Theorem getGradeLevel_monotone (s t : Student) :
  (double_le (getGpa s) (getGpa t) = true ->
   (letter_rank (getGradeLevel s) <= letter_rank (getGradeLevel t))%nat) /\
  (getGradeLevel s = lit "A" -> isHonorStudent s = true) /\
  (getGpa s = S754_nan ->
   getGradeLevel s = lit "F" /\ isHonorStudent s = false).
Proof.
  unfold getGradeLevel, isHonorStudent, double_ge, double_le.
  split; [| split].
  - intros Hle.
    pose proof (fun c H => SFleb_trans c _ _ H Hle) as Hup.
    pose proof (Hup d3_7) as H37. pose proof (Hup d3_0) as H30.
    pose proof (Hup d2_0) as H20. pose proof (Hup d1_0) as H10.
    destruct (SFleb d3_7 (getGpa s)); [rewrite (H37 eq_refl); vm_compute; lia |].
    destruct (SFleb d3_0 (getGpa s));
      [rewrite (H30 eq_refl); destruct (SFleb d3_7 (getGpa t)); vm_compute; lia |].
    destruct (SFleb d2_0 (getGpa s));
      [rewrite (H20 eq_refl); destruct (SFleb d3_7 (getGpa t));
       destruct (SFleb d3_0 (getGpa t)); vm_compute; lia |].
    destruct (SFleb d1_0 (getGpa s));
      [rewrite (H10 eq_refl); destruct (SFleb d3_7 (getGpa t));
       destruct (SFleb d3_0 (getGpa t)); destruct (SFleb d2_0 (getGpa t));
       vm_compute; lia |].
    vm_compute. lia.
  - intros HA.
    destruct (SFleb d3_7 (getGpa s)) eqn:E37.
    + apply (SFleb_trans d3_5 d3_7); [reflexivity | exact E37].
    + destruct (SFleb d3_0 (getGpa s)); [discriminate |].
      destruct (SFleb d2_0 (getGpa s)); [discriminate |].
      destruct (SFleb d1_0 (getGpa s)); discriminate.
  - intros ->. split; reflexivity.
Qed.

Lemma getGradeLevel_monotone_witness :
  (letter_rank (getGradeLevel (Student_new 1 (lit "Al") 20 d2_0)) <=
   letter_rank (getGradeLevel (Student_new 2 (lit "Bo") 20 d3_5)))%nat.
Proof.
  apply (proj1 (getGradeLevel_monotone (Student_new 1 (lit "Al") 20 d2_0)
                  (Student_new 2 (lit "Bo") 20 d3_5))).
  reflexivity.
Defined.

(** ** Search by name *)

Lemma is_prefix_spec (p s : str) :
  is_prefix p s = true <-> exists post, s = p ++ post.
Proof.
  revert s. induction p as [| a p IH]; intros s.
  - simpl. split; [intros _; now exists s | reflexivity].
  - destruct s as [| b s]; simpl.
    + split; [discriminate | intros [post H]; discriminate].
    + rewrite andb_true_iff, IH. split.
      * intros [Hab [post ->]]. apply Ascii.eqb_eq in Hab as ->. now exists post.
      * intros [post H]. injection H as -> ->.
        split; [apply Ascii.eqb_refl | now exists post].
Qed.

Lemma is_infix_spec (pat s : str) :
  is_infix pat s = true <-> exists pre post, s = pre ++ pat ++ post.
Proof.
  induction s as [| c s IH].
  - simpl. rewrite orb_false_r, is_prefix_spec. split.
    + intros [post H]. now exists [], post.
    + intros (pre & post & H). symmetry in H.
      apply app_eq_nil in H as [-> H]. now exists post.
  - cbn [is_infix]. rewrite orb_true_iff, IH, is_prefix_spec. split.
    + intros [[post H] | (pre & post & H)].
      * now exists [], post.
      * exists (c :: pre), post. now rewrite H.
    + intros (pre & post & H). destruct pre as [| c' pre].
      * left. now exists post.
      * right. injection H as -> ->. now exists pre, post.
Qed.

Lemma find_str_from_infix (pat s : str) (i : Z) :
  0 <= i -> i + len s < npos ->
  (find_str_from pat s i =? npos) = negb (is_infix pat s).
Proof.
  revert i. induction s as [| c s IH]; intros i Hi Hlen.
  - simpl. destruct (is_prefix pat []); simpl.
    + apply Z.eqb_neq. rewrite len_nil in Hlen. lia.
    + reflexivity.
  - cbn [find_str_from is_infix]. destruct (is_prefix pat (c :: s)); simpl.
    + apply Z.eqb_neq. pose proof (len_nonneg (c :: s)). lia.
    + apply IH; [lia |]. rewrite len_cons in Hlen. lia.
Qed.

Lemma find_str_infix (s pat : str) :
  len s < npos -> negb (find_str s pat 0 =? npos) = is_infix pat s.
Proof.
  intros Hlen. unfold find_str.
  assert (H : (0 <=? len s) = true) by (apply Z.leb_le; apply len_nonneg).
  rewrite H. change (drop (Z.to_nat 0) s) with s.
  rewrite find_str_from_infix by lia. apply negb_involutive.
Qed.

Lemma search_loop_filter (name : str) (v : list Student) (found : bool) :
  Forall (fun s => len (getName s) < npos) v ->
  search_loop name v found =
    (FullInfo <$> filter (fun s => is_infix name (getName s) = true) v,
     match filter (fun s => is_infix name (getName s) = true) v with
     | [] => found
     | _ :: _ => true
     end).
Proof.
  intros Hv. revert found. induction Hv as [| s v Hs Hv IH]; intros found.
  - reflexivity.
  - cbn [search_loop]. rewrite (find_str_infix _ name Hs), filter_cons.
    destruct (is_infix name (getName s)) eqn:E.
    + rewrite decide_True by reflexivity. rewrite IH. simpl.
      now destruct (filter _ v).
    + rewrite decide_False by discriminate. apply IH.
Qed.

Lemma shown_app (l1 l2 : list event) : shown (l1 ++ l2) = shown l1 ++ shown l2.
Proof. apply omap_app. Qed.

Lemma shown_Text (t : str) (l : list event) : shown (Text t :: l) = shown l.
Proof. reflexivity. Qed.

Lemma messages_app (l1 l2 : list event) :
  messages (l1 ++ l2) = messages l1 ++ messages l2.
Proof. apply omap_app. Qed.

Lemma messages_Text (t : str) (l : list event) :
  messages (Text t :: l) = t :: messages l.
Proof. reflexivity. Qed.

Lemma messages_FullInfo (v : list Student) : messages (FullInfo <$> v) = [].
Proof. induction v as [| s v IH]; [reflexivity | exact IH]. Qed.

(** X8. The search by name shows, in roster order, the records whose name
    contains the text asked for (as a contiguous part, upper and lower case
    told apart); when there is none it ends on the "No students found"
    message, otherwise it writes no message besides the prompts. *)
Theorem search_by_name_shows_matches (id : Z) (name : str) (m : StudentManager) :
  Forall (fun s => len (getName s) < npos) (students m) ->
  (forall s : str, is_infix name s = true <-> exists pre post, s = pre ++ name ++ post) /\
  shown (searchStudent 2 id name m) =
    filter (fun s => is_infix name (getName s) = true) (students m) /\
  (filter (fun s => is_infix name (getName s) = true) (students m) = [] ->
   last (searchStudent 2 id name m) =
     Some (Text (lit "No students found with name containing '" ++ name ++
                 lit "'" ++ endl))) /\
  (filter (fun s => is_infix name (getName s) = true) (students m) ≠ [] ->
   messages (searchStudent 2 id name m) =
     [endl ++ lit "=== Search Student ===" ++ endl;
      lit "1. Search by ID" ++ endl; lit "2. Search by Name" ++ endl;
      lit "Choose option: "; lit "Enter student name: "]).
Proof.
  intros Hv. split; [intros s; apply is_infix_spec |].
  unfold searchStudent. change (2 =? 1) with false. change (2 =? 2) with true.
  cbv iota. rewrite (search_loop_filter name _ false Hv).
  set (hits := filter (fun s => is_infix name (getName s) = true) (students m)).
  cbn [app]. split; [| split].
  - rewrite !shown_Text, shown_app, shown_FullInfo.
    destruct hits; simpl; now rewrite ?app_nil_r.
  - intros Hnone. rewrite Hnone. reflexivity.
  - intros Hsome. rewrite !messages_Text, messages_app, messages_FullInfo.
    destruct hits; [contradiction | reflexivity].
Qed.

Lemma search_by_name_shows_matches_witness :
  shown (searchStudent 2 0 (lit "li")
           (mkManager [Student_new 1 (lit "Alice") 20 d3_7;
                       Student_new 2 (lit "Bob") 30 d2_0;
                       Student_new 3 (lit "Olivia") 31 d1_0] (lit "students.txt"))) =
    [Student_new 1 (lit "Alice") 20 d3_7; Student_new 3 (lit "Olivia") 31 d1_0].
Proof.
  etransitivity.
  - apply (proj1 (proj2 (search_by_name_shows_matches 0 (lit "li")
             (mkManager [Student_new 1 (lit "Alice") 20 d3_7;
                         Student_new 2 (lit "Bob") 30 d2_0;
                         Student_new 3 (lit "Olivia") 31 d1_0] (lit "students.txt"))
             ltac:(repeat constructor)))).
  - vm_compute. reflexivity.
Defined.

(** ** Saving, and loading what was saved *)

Lemma digits_no_newline (s : str) :
  Forall (fun c => isdigit c = true) s -> "010"%char ∉ s.
Proof.
  intros H Hin. rewrite Forall_forall in H. apply H in Hin. discriminate.
Qed.

Lemma to_string_int_no_newline (z : Z) : "010"%char ∉ to_string_int z.
Proof.
  unfold to_string_int. destruct (z <? 0).
  - intros Hin. apply elem_of_cons in Hin as [H | H]; [discriminate |].
    revert H. apply digits_no_newline, to_string_nat_digits.
  - apply digits_no_newline, to_string_nat_digits.
Qed.

Lemma fixed6_no_newline (neg : bool) (n : Z) : "010"%char ∉ fixed6 neg n.
Proof.
  unfold fixed6. rewrite !elem_of_app. intros [H | [H | [H | H]]].
  - destruct neg; simpl in H; [| inversion H].
    apply list_elem_of_singleton in H. discriminate.
  - revert H. apply digits_no_newline, to_string_nat_digits.
  - apply list_elem_of_singleton in H. discriminate.
  - revert H. apply digits_no_newline, six_digits_digits.
Qed.

Lemma to_string_double_no_newline (x : double) : "010"%char ∉ to_string_double x.
Proof.
  destruct x as [s | s | | s m e]; simpl; try apply fixed6_no_newline.
  - destruct s; vm_compute; intros H;
      repeat (apply elem_of_cons in H as [H | H]; [discriminate |]); inversion H.
  - vm_compute; intros H;
      repeat (apply elem_of_cons in H as [H | H]; [discriminate |]); inversion H.
Qed.

Lemma join_no_newline (cs : list str) :
  Forall (fun c => "010"%char ∉ c) cs -> "010"%char ∉ join (lit ";") cs.
Proof.
  induction 1 as [| c cs Hc Hcs IH]; [intros H; inversion H |].
  destruct cs as [| c' cs]; [exact Hc |].
  change (join (lit ";") (c :: c' :: cs))
    with (c ++ lit ";" ++ join (lit ";") (c' :: cs)).
  rewrite !elem_of_app. intros [H | [H | H]]; [now apply Hc | | now apply IH].
  apply list_elem_of_singleton in H. discriminate.
Qed.

(** The line of a record holds no end of line, unless its name or one of
    its courses does. *)
Lemma toFileString_no_newline (r : Student) :
  vsize (getCourses r) < size_modulus ->
  "010"%char ∉ getName r ->
  Forall (fun c => "010"%char ∉ c) (getCourses r) ->
  "010"%char ∉ toFileString r.
Proof.
  intros Hsize Hname Hcourses. rewrite (toFileString_fields r Hsize).
  unfold fields_line.
  repeat (rewrite elem_of_app || rewrite elem_of_cons).
  intros [H | [H | [H | [H | [H | [H | [H | [H | H]]]]]]]]; try discriminate.
  - revert H. apply to_string_int_no_newline.
  - now apply Hname.
  - revert H. apply to_string_int_no_newline.
  - revert H. apply to_string_double_no_newline.
  - revert H. now apply join_no_newline.
Qed.

Lemma toFileString_not_empty (r : Student) : toFileString r ≠ [].
Proof.
  unfold toFileString. intros H. apply app_eq_nil in H as [_ H]. discriminate.
Qed.

Lemma save_loop_file_of (v : list Student) (file : str) :
  save_loop v file = file ++ file_of v.
Proof.
  revert file. induction v as [| s v IH]; intros file; simpl.
  - unfold file_of. simpl. now rewrite app_nil_r.
  - rewrite IH. unfold file_of. simpl. now rewrite <- !app_assoc.
Qed.

Lemma lines_line (l rest : str) :
  "010"%char ∉ l -> lines (l ++ endl ++ rest) = l :: lines rest.
Proof.
  induction l as [| c l IH]; intros Hnot; [reflexivity |].
  apply not_elem_of_cons in Hnot as [Hc Hl].
  cbn [app lines]. rewrite (IH Hl).
  assert (E : Ascii.eqb c "010" = false) by (apply Ascii.eqb_neq; congruence).
  now rewrite E.
Qed.

Lemma lines_file_of (v : list Student) :
  Forall (fun r => "010"%char ∉ toFileString r) v ->
  lines (file_of v) = toFileString <$> v.
Proof.
  induction 1 as [| r v Hr Hv IH]; [reflexivity |].
  unfold file_of. cbn [map concat]. rewrite <- app_assoc.
  fold (file_of v). rewrite (lines_line _ _ Hr), IH. reflexivity.
Qed.

Lemma persistable_no_newline (r : Student) :
  persistable r -> "010"%char ∉ toFileString r.
Proof.
  intros ((_ & _ & Hsize & _) & _ & Hname & Hcourses & _).
  apply toFileString_no_newline; [exact Hsize | exact Hname |].
  eapply Forall_impl; [exact Hcourses |]. now intros c (_ & _ & H).
Qed.

Lemma reads_as_file_of (v : list Student) :
  Forall persistable v -> reads_as (file_of v) v.
Proof.
  intros Hv. unfold reads_as. rewrite lines_file_of.
  - induction Hv as [| r v Hr Hv IH]; [constructor |].
    cbn [fmap list_fmap]. rewrite filter_cons_True by apply toFileString_not_empty.
    apply List.Forall2_cons; [| exact IH].
    destruct Hr as (Hrep & Hcomma & _ & Hcourses & Hlast & Hgpa).
    apply fromFileString_toFileString; try assumption.
    eapply Forall_impl; [exact Hcourses |]. now intros c (H1 & H2 & _).
  - eapply Forall_impl; [exact Hv |]. apply persistable_no_newline.
Qed.

(** [loadFromFile] on a file that is read without an exception. *)
Lemma loadFromFile_reads (fs : FileSystem) (m : StudentManager) (content : str)
    (recs : list Student) :
  fs !! filename m = Some content ->
  reads_as content recs ->
  loadFromFile fs m =
    (Ok [Text (lit "Loaded " ++ to_string_nat (vsize recs) ++
               lit " students from " ++ filename m ++ endl)],
     setStudents recs m).
Proof.
  intros Hsome Hrecs. unfold loadFromFile. rewrite Hsome.
  rewrite bind_modify. unfold bind at 1.
  rewrite (load_loop_appends _ content recs) by (trivial; lia).
  reflexivity.
Qed.

(** X9. What was saved is what is loaded: for a roster of records that the
    file format holds without loss, [loadFromFile] after [saveToFile]
    gives the saved roster, in order; a manager built on the file that the
    destructor of another one wrote is that manager again; and saving what
    was loaded writes the same file. *)
Theorem saveToFile_then_loadFromFile (fs : FileSystem) (m m0 : StudentManager) :
  Forall persistable (students m) ->
  filename m0 = filename m ->
  loadFromFile (saveToFile true fs m).2 m0 =
    (Ok [Text (lit "Loaded " ++ to_string_nat (vsize (students m)) ++
               lit " students from " ++ filename m ++ endl)],
     setStudents (students m) m0) /\
  StudentManager_new (StudentManager_delete true fs m).2 (filename m) =
    (Ok [Text (lit "Loaded " ++ to_string_nat (vsize (students m)) ++
               lit " students from " ++ filename m ++ endl)], m) /\
  (saveToFile true (saveToFile true fs m).2
     (loadFromFile (saveToFile true fs m).2 m0).2).2 = (saveToFile true fs m).2.
Proof.
  intros Hv Hname.
  assert (Hload : forall m1, filename m1 = filename m ->
            loadFromFile (saveToFile true fs m).2 m1 =
              (Ok [Text (lit "Loaded " ++ to_string_nat (vsize (students m)) ++
                         lit " students from " ++ filename m ++ endl)],
               setStudents (students m) m1)).
  { intros m1 Hm1.
    rewrite (loadFromFile_reads _ m1 (file_of (students m)) (students m)).
    - now rewrite Hm1.
    - unfold saveToFile. cbn [snd]. rewrite Hm1, save_loop_file_of.
      apply lookup_insert_eq.
    - now apply reads_as_file_of. }
  split; [now apply Hload |]. split.
  - unfold StudentManager_new, StudentManager_delete.
    rewrite (Hload (mkManager [] (filename m)) eq_refl). now destruct m.
  - rewrite (Hload m0 Hname). unfold saveToFile. cbn [snd].
    unfold setStudents. simpl. rewrite Hname. apply insert_insert_eq.
Qed.

Lemma saveToFile_then_loadFromFile_witness :
  StudentManager_new
    (StudentManager_delete true ∅
       (mkManager [mkStudent 1 (lit "Alice") 20 d3_7 [lit "Math"; lit "Art"];
                   mkStudent 2 (lit "Bob") 31 d2_0 []] (lit "students.txt"))).2
    (lit "students.txt") =
  (Ok [Text (lit "Loaded 2 students from students.txt" ++ endl)],
   mkManager [mkStudent 1 (lit "Alice") 20 d3_7 [lit "Math"; lit "Art"];
               mkStudent 2 (lit "Bob") 31 d2_0 []] (lit "students.txt")).
Proof.
  pose proof not_in_lit as Hno.
  assert (Hp : Forall persistable
                 [mkStudent 1 (lit "Alice") 20 d3_7 [lit "Math"; lit "Art"];
                  mkStudent 2 (lit "Bob") 31 d2_0 []]).
  { repeat apply Forall_cons_2; try apply Forall_nil_2;
      (split; [repeat split; vm_compute; congruence |]);
      (split; [apply Hno; reflexivity |]);
      (split; [apply Hno; reflexivity |]);
      (split; [repeat apply Forall_cons_2; try apply Forall_nil_2;
               repeat split; apply Hno; reflexivity |]);
      (split; [vm_compute; discriminate | vm_compute; reflexivity]). }
  etransitivity.
  - apply (proj1 (proj2 (saveToFile_then_loadFromFile ∅
             (mkManager [mkStudent 1 (lit "Alice") 20 d3_7 [lit "Math"; lit "Art"];
                         mkStudent 2 (lit "Bob") 31 d2_0 []] (lit "students.txt"))
             (mkManager [] (lit "students.txt")) Hp eq_refl))).
  - vm_compute. reflexivity.
Defined.

(** X10. [saveToFile] writes one line per student, in roster order, into
    the file of the manager, whatever the file held before, and touches no
    other file; when the file cannot be opened nothing is written. (A name
    or a course that holds an end of line would spread a record over two
    lines, hence the condition of the last part.) *)
Theorem saveToFile_one_line_per_student (opens : bool) (fs : FileSystem)
    (m : StudentManager) :
  (saveToFile false fs m).2 = fs /\
  (forall p, p ≠ filename m -> (saveToFile opens fs m).2 !! p = fs !! p) /\
  (saveToFile true fs m).2 !! filename m = Some (file_of (students m)) /\
  (Forall (fun r => vsize (getCourses r) < size_modulus /\
                    ("010"%char ∉ getName r) /\
                    Forall (fun c => "010"%char ∉ c) (getCourses r)) (students m) ->
   lines (file_of (students m)) = toFileString <$> students m).
Proof.
  split; [reflexivity |]. split; [| split].
  - intros p Hp. unfold saveToFile. destruct opens; [| reflexivity].
    cbn [snd]. apply lookup_insert_ne. congruence.
  - unfold saveToFile. cbn [snd]. rewrite save_loop_file_of. apply lookup_insert_eq.
  - intros Hv. apply lines_file_of. eapply Forall_impl; [exact Hv |].
    intros r (Hsize & Hname & Hcourses). now apply toFileString_no_newline.
Qed.

Lemma saveToFile_one_line_per_student_witness :
  lines (file_of [mkStudent 1 (lit "Alice") 20 d3_7 [lit "Math"; lit "Art"];
                  mkStudent 2 (lit "Bob") 31 d2_0 []]) =
    [lit "1,Alice,20,3.700000,Math;Art"; lit "2,Bob,31,2.000000,"] /\
  (saveToFile true {[ lit "other.txt" := lit "kept" ]}
     (mkManager [] (lit "students.txt"))).2 !! lit "other.txt" = Some (lit "kept").
Proof.
  pose proof not_in_lit as Hno.
  assert (Hv : Forall (fun r => vsize (getCourses r) < size_modulus /\
                         ("010"%char ∉ getName r) /\
                         Forall (fun c => "010"%char ∉ c) (getCourses r))
                 [mkStudent 1 (lit "Alice") 20 d3_7 [lit "Math"; lit "Art"];
                  mkStudent 2 (lit "Bob") 31 d2_0 []]).
  { repeat apply Forall_cons_2; try apply Forall_nil_2;
      (split; [reflexivity |]); (split; [apply Hno; reflexivity |]);
      repeat apply Forall_cons_2; try apply Forall_nil_2; apply Hno; reflexivity. }
  split.
  - etransitivity.
    + apply (proj2 (proj2 (proj2 (saveToFile_one_line_per_student true ∅
               (mkManager [mkStudent 1 (lit "Alice") 20 d3_7 [lit "Math"; lit "Art"];
                           mkStudent 2 (lit "Bob") 31 d2_0 []] (lit "students.txt"))))) Hv).
    + vm_compute. reflexivity.
  - etransitivity.
    + apply (proj1 (proj2 (saveToFile_one_line_per_student true
               {[ lit "other.txt" := lit "kept" ]}
               (mkManager [] (lit "students.txt")))) (lit "other.txt")).
      discriminate.
    + apply lookup_singleton_eq.
Defined.

(** ** [fromFileString] on an object that already holds a record *)

Lemma fields_assigned (i : Z) (n : str) (a : Z) (g : double) (s : Student) :
  assignCourses [] (assignGpa g (setAge a (setName n (setId i s)))) =
    mkStudent i n a g [].
Proof. reflexivity. Qed.

(** X11. [fromFileString] leaves nothing of what the object held before:
    whether it throws, and the record it gives when it does not, depend on
    the line only (the courses are emptied, not extended). *)
Theorem fromFileString_overwrites (line : str) (s0 s1 : Student) :
  (fromFileString line s0).1 = (fromFileString line s1).1 /\
  ((fromFileString line s0).1 = Ok tt ->
   (fromFileString line s0).2 = (fromFileString line s1).2).
Proof.
  unfold fromFileString.
  set (pos1 := find_char line "," 0).
  set (pos2 := find_char line "," (pos1 +! 1)).
  set (pos3 := find_char line "," (pos2 +! 1)).
  set (pos4 := find_char line "," (pos3 +! 1)).
  fold (course_field line pos4).
  destruct (substr line 0 pos1) as [t0 | e |];
    [| split; [reflexivity | discriminate] ..].
  rewrite !bind_lift_Ok.
  destruct (stoi t0) as [v0 | e |]; [| split; [reflexivity | discriminate] ..].
  rewrite !bind_lift_Ok, !bind_modify.
  destruct (substr line (pos1 +! 1) (pos2 -! pos1 -! 1)) as [t1 | e |];
    [| split; [reflexivity | discriminate] ..].
  rewrite !bind_lift_Ok, !bind_modify.
  destruct (substr line (pos2 +! 1) (pos3 -! pos2 -! 1)) as [t2 | e |];
    [| split; [reflexivity | discriminate] ..].
  rewrite !bind_lift_Ok.
  destruct (stoi t2) as [v2 | e |]; [| split; [reflexivity | discriminate] ..].
  rewrite !bind_lift_Ok, !bind_modify.
  destruct (substr line (pos3 +! 1) (pos4 -! pos3 -! 1)) as [t3 | e |];
    [| split; [reflexivity | discriminate] ..].
  rewrite !bind_lift_Ok.
  destruct (stod t3) as [v3 | e |]; [| split; [reflexivity | discriminate] ..].
  rewrite !bind_lift_Ok, !bind_modify, !fields_assigned.
  split; [reflexivity | intros _; reflexivity].
Qed.

Lemma fromFileString_overwrites_witness :
  (fromFileString (lit "1,Bob,20,3.5,Math")
     (mkStudent 9 (lit "Old") 50 d1_0 [lit "Art"])).2 =
  (fromFileString (lit "1,Bob,20,3.5,Math") Student_default).2.
Proof.
  apply (proj2 (fromFileString_overwrites (lit "1,Bob,20,3.5,Math")
                  (mkStudent 9 (lit "Old") 50 d1_0 [lit "Art"]) Student_default)).
  vm_compute. reflexivity.
Defined.

(** ** Refused lines and termination, on concrete files *)

Lemma fromFileString_throws_iff_witness :
  is_throw (fromFileString
              (fields_line (lit "x1") (lit "Bob") (lit "20") (lit "3.5") [])
              Student_default).1 = true.
Proof.
  apply (proj2 (fromFileString_throws_iff (lit "x1") (lit "Bob") (lit "20")
                  (lit "3.5") [] Student_default
                  (not_in_lit "," "x1" eq_refl) (not_in_lit "," "Bob" eq_refl)
                  (not_in_lit "," "20" eq_refl) (not_in_lit "," "3.5" eq_refl)
                  (or_introl eq_refl) eq_refl)).
  left. reflexivity.
Defined.

Lemma loadFromFile_throws_witness :
  loadFromFile
    {[ lit "students.txt" := lit "1,Alice,20,3.7" ++ endl ++ lit "  " ++ endl ]}
    (mkManager [Student_new 9 (lit "Old") 50 d1_0] (lit "students.txt")) =
    (Throw invalid_argument,
     mkManager [Student_new 1 (lit "Alice") 20 d3_7] (lit "students.txt")).
Proof.
  etransitivity.
  - apply (loadFromFile_throws
             {[ lit "students.txt" := lit "1,Alice,20,3.7" ++ endl ++ lit "  " ++ endl ]}
             (mkManager [Student_new 9 (lit "Old") 50 d1_0] (lit "students.txt"))
             (lit "1,Alice,20,3.7" ++ endl ++ lit "  " ++ endl)
             [lit "1,Alice,20,3.7"] [] (lit "  ") invalid_argument Student_default
             [Student_new 1 (lit "Alice") 20 d3_7]).
    + apply lookup_singleton_eq.
    + vm_compute. reflexivity.
    + rewrite filter_cons_True by discriminate.
      apply List.Forall2_cons; [vm_compute; reflexivity | apply List.Forall2_nil].
    + discriminate.
    + vm_compute. reflexivity.
  - reflexivity.
Defined.


(** ** What is displayed *)

Lemma length_setw (w : nat) (t : str) : length (setw w t) = Nat.max w (length t).
Proof. unfold setw. rewrite length_app, repeat_length. lia. Qed.

Lemma length_getGradeLevel (s : Student) : length (getGradeLevel s) = 1%nat.
Proof.
  unfold getGradeLevel.
  destruct (double_ge (getGpa s) d3_7); [reflexivity |].
  destruct (double_ge (getGpa s) d3_0); [reflexivity |].
  destruct (double_ge (getGpa s) d2_0); [reflexivity |].
  destruct (double_ge (getGpa s) d1_0); reflexivity.
Qed.

Lemma length_table_row (s : Student) :
  length (table_row s) =
    (Nat.max 5 (length (to_string_int (getId s))) +
     Nat.max 20 (length (getName s)) +
     Nat.max 5 (length (to_string_int (getAge s))) +
     Nat.max 8 (length (fixed_text 2 (getGpa s))) + 8)%nat.
Proof.
  unfold table_row, displayBasicInfo.
  rewrite !length_app, !length_setw, length_getGradeLevel. lia.
Qed.

Lemma render_app (l1 l2 : list event) : render (l1 ++ l2) = render l1 ++ render l2.
Proof. unfold render. now rewrite map_app, concat_app. Qed.

Lemma render_display_loop (v : list Student) :
  render (display_loop v) = concat ((fun s => table_row s ++ endl) <$> v).
Proof.
  induction v as [| s v IH]; [reflexivity |].
  cbn [display_loop fmap list_fmap concat]. rewrite <- IH.
  unfold render, table_row. cbn [map concat]. now rewrite <- !app_assoc.
Qed.

(** X15. The table of [displayAllStudents]: a title, the header, a rule of
    46 dashes, then one row per student in roster order. The header is 46
    characters wide; a row is never cut short, and it is 46 wide, that is
    aligned with the header, exactly when the id and the age take at most
    5 characters, the name at most 20 and the gpa at most 8. An empty
    roster gives the one message instead. *)
Theorem displayAllStudents_table (m : StudentManager) :
  (students m = [] ->
   displayAllStudents m = [Text (endl ++ lit "No students in the system." ++ endl)]) /\
  (students m ≠ [] ->
   render (displayAllStudents m) =
     endl ++ lit "=== All Students ===" ++ endl ++
     table_header ++ endl ++ repeat "-"%char 46 ++ endl ++
     concat ((fun s => table_row s ++ endl) <$> students m)) /\
  length table_header = 46%nat /\
  (forall s, (46 <= length (table_row s))%nat /\
             (length (table_row s) = 46%nat <-> fits_columns s)).
Proof.
  split; [| split; [| split]].
  - unfold displayAllStudents. now intros ->.
  - intros Hne. unfold displayAllStudents.
    destruct (students m) as [| s v] eqn:E; [contradiction |].
    rewrite render_app, render_display_loop.
    unfold render, table_header. cbn [map concat].
    rewrite app_nil_r, <- !app_assoc. reflexivity.
  - reflexivity.
  - intros s. rewrite length_table_row. unfold fits_columns. lia.
Qed.

Lemma displayAllStudents_table_witness :
  render (displayAllStudents
            (mkManager [Student_new 1 (lit "Alice") 20 d3_7] (lit "students.txt"))) =
    endl ++ lit "=== All Students ===" ++ endl ++
    lit "   ID                Name  Age     GPA   Grade" ++ endl ++
    lit "----------------------------------------------" ++ endl ++
    lit "    1               Alice   20    3.70       A" ++ endl.
Proof.
  etransitivity.
  - apply (proj1 (proj2 (displayAllStudents_table
             (mkManager [Student_new 1 (lit "Alice") 20 d3_7] (lit "students.txt"))))).
    discriminate.
  - vm_compute. reflexivity.
Defined.

(** The [for] loop of [displayFullInfo] joins the courses with [", "]. *)
Lemma display_courses_loop_join (k : nat) (courses : list str) (i : Z) (acc : str) :
  vsize courses < size_modulus ->
  0 <= i ->
  (Z.to_nat i + k = length courses)%nat ->
  display_courses_loop k courses i acc =
    acc ++ join (lit ", ") (drop (Z.to_nat i) courses).
Proof.
  intros Hsize. revert i acc.
  induction k as [| k IH]; intros i acc Hi Hlen; simpl.
  - rewrite drop_ge by lia. simpl. now rewrite app_nil_r.
  - destruct (lookup_lt_is_Some_2 courses (Z.to_nat i)) as [c Hc]; [lia |].
    rewrite Hc, (drop_S _ _ _ Hc), join_cons.
    assert (Hw : vsize courses -! 1 = vsize courses - 1).
    { apply wrap_small. unfold vsize in *. lia. }
    assert (Hi1 : i +! 1 = i + 1).
    { apply wrap_small. unfold vsize in *. lia. }
    rewrite Hw, Hi1, IH by lia.
    replace (Z.to_nat (i + 1)) with (S (Z.to_nat i)) by lia.
    destruct k as [| k].
    + assert (Hlast : (i <? vsize courses - 1) = false).
      { apply Z.ltb_ge. unfold vsize. lia. }
      rewrite Hlast, drop_ge by lia. simpl. now rewrite !app_nil_r.
    + assert (Hmore : (i <? vsize courses - 1) = true).
      { apply Z.ltb_lt. unfold vsize. lia. }
      rewrite Hmore.
      destruct (drop (S (Z.to_nat i)) courses) as [| c' rest] eqn:Hrest.
      * apply (f_equal length) in Hrest. rewrite length_drop in Hrest.
        simpl in Hrest. lia.
      * now rewrite <- !app_assoc.
Qed.

(** X16. [displayFullInfo] writes the five fields on five lines; the
    courses are joined by a comma and a blank, and a record without
    courses shows "None". *)
Theorem displayFullInfo_courses (s : Student) :
  vsize (getCourses s) < size_modulus ->
  displayFullInfo s =
    endl ++ lit "=== Student Details ===" ++ endl ++
    lit "ID: " ++ to_string_int (getId s) ++ endl ++
    lit "Name: " ++ getName s ++ endl ++
    lit "Age: " ++ to_string_int (getAge s) ++ endl ++
    lit "GPA: " ++ fixed_text 2 (getGpa s) ++ endl ++
    lit "Courses: " ++
    (if decide (getCourses s = []) then lit "None"
     else join (lit ", ") (getCourses s)) ++ endl.
Proof.
  intros Hsize. unfold displayFullInfo.
  destruct (getCourses s) as [| c cs] eqn:E; [reflexivity |].
  rewrite decide_False by discriminate.
  rewrite display_courses_loop_join by (simpl; lia). reflexivity.
Qed.

Lemma displayFullInfo_courses_witness :
  displayFullInfo (mkStudent 1 (lit "Alice") 20 d3_7 [lit "Math"; lit "Art"]) =
    endl ++ lit "=== Student Details ===" ++ endl ++
    lit "ID: 1" ++ endl ++ lit "Name: Alice" ++ endl ++ lit "Age: 20" ++ endl ++
    lit "GPA: 3.70" ++ endl ++ lit "Courses: Math, Art" ++ endl.
Proof.
  etransitivity.
  - apply (displayFullInfo_courses
             (mkStudent 1 (lit "Alice") 20 d3_7 [lit "Math"; lit "Art"])).
    reflexivity.
  - vm_compute. reflexivity.
Defined.

(** X17. A gpa typed with two decimals between 0.00 and 4.00 (the double
    nearest to it) is displayed with these two decimals, on four
    characters: the rounding to binary never shows in the gpa column. *)
Theorem gpa_shown_as_typed (k : Z) (s : Student) :
  0 <= k <= 400 ->
  getGpa s = hundredths k ->
  fixed_text 2 (getGpa s) = two_decimals k /\
  length (fixed_text 2 (getGpa s)) = 4%nat /\
  displayBasicInfo s =
    setw 5 (to_string_int (getId s)) ++ setw 20 (getName s) ++
    setw 5 (to_string_int (getAge s)) ++ repeat " "%char 4 ++ two_decimals k.
Proof.
  intros Hk Hgpa.
  assert (Hall : forallb (fun n => shows_hundredths (Z.of_nat n) &&
                                   (length (two_decimals (Z.of_nat n)) =? 4)%nat)
                   (seq 0 401) = true) by (vm_compute; reflexivity).
  rewrite forallb_forall in Hall. specialize (Hall (Z.to_nat k)).
  rewrite Z2Nat.id in Hall by lia.
  assert (Hin : In (Z.to_nat k) (seq 0 401)) by (apply in_seq; lia).
  apply Hall in Hin. apply andb_prop in Hin as [Hshow Hlen].
  unfold shows_hundredths in Hshow. apply bool_decide_eq_true in Hshow.
  apply Nat.eqb_eq in Hlen.
  unfold displayBasicInfo. rewrite Hgpa, Hshow.
  split; [reflexivity |]. split; [exact Hlen |].
  unfold setw at 4. now rewrite Hlen.
Qed.

Lemma gpa_shown_as_typed_witness :
  fixed_text 2 (getGpa (Student_new 1 (lit "Alice") 20 d3_7)) = lit "3.70".
Proof.
  etransitivity.
  - apply (gpa_shown_as_typed 370 (Student_new 1 (lit "Alice") 20 d3_7));
      [lia | vm_compute; reflexivity].
  - vm_compute. reflexivity.
Defined.

(** ** [generateReports] *)

Lemma honor_loop_filter (v : list Student) (has : bool) :
  honor_loop v has =
    (honor_line <$> filter (fun s => isHonorStudent s = true) v,
     match filter (fun s => isHonorStudent s = true) v with
     | [] => has
     | _ :: _ => true
     end).
Proof.
  revert has. induction v as [| s v IH]; intros has; [reflexivity |].
  cbn [honor_loop]. rewrite filter_cons.
  destruct (isHonorStudent s) eqn:E.
  - rewrite decide_True by reflexivity. rewrite IH. simpl.
    now destruct (filter _ v).
  - rewrite decide_False by discriminate. apply IH.
Qed.

Lemma sum_ages_nonneg (v : list Student) :
  Forall (fun s => 0 <= getAge s) v -> 0 <= sum_ages v.
Proof. induction 1 as [| s v Hs Hv IH]; simpl; lia. Qed.

(** The second loop: the two sums, unless the sum of the ages leaves the
    range of [int] on the way. *)
Lemma totals_loop_sums (v : list Student) (g : double) (a : Z) :
  Forall (fun s => 0 <= getAge s) v ->
  INT_MIN <= a <= INT_MAX ->
  totals_loop v g a =
    if a + sum_ages v <=? INT_MAX then Some (sum_gpas v g, a + sum_ages v)
    else None.
Proof.
  intros Hv. revert g a. induction Hv as [| s v Hs Hv IH]; intros g a Ha.
  - simpl. rewrite Z.add_0_r.
    assert (E : (a <=? INT_MAX) = true) by (apply Z.leb_le; lia).
    now rewrite E.
  - pose proof (sum_ages_nonneg v Hv) as Hrest.
    cbn [totals_loop sum_ages foldr]. fold (sum_ages v). unfold in_int_range.
    destruct (Z.leb_spec (a + getAge s) INT_MAX) as [Hin | Hout].
    + assert (E : (INT_MIN <=? a + getAge s) = true) by (apply Z.leb_le; lia).
      rewrite E. cbn [andb]. rewrite IH by lia.
      now rewrite Z.add_assoc.
    + rewrite andb_false_r.
      assert (E : (a + (getAge s + sum_ages v) <=? INT_MAX) = false)
        by (apply Z.leb_gt; lia).
      now rewrite E.
Qed.

(** X18. [generateReports]: an empty roster gives one message and no
    division; otherwise, ages being non-negative, the behaviour is defined
    exactly when the sum of the ages fits an [int], and then the report
    lists the honor students (gpa at least 3.5) in roster order, or says
    that there is none, and gives the number of students and the two
    averages, computed on doubles from the sums taken in roster order. *)
Theorem generateReports_sections (m : StudentManager) :
  (students m = [] ->
   generateReports m =
     Some [Text (endl ++ lit "No students to generate reports." ++ endl)]) /\
  (students m ≠ [] ->
   Forall (fun s => 0 <= getAge s) (students m) ->
   (INT_MAX < sum_ages (students m) -> generateReports m = None) /\
   (sum_ages (students m) <= INT_MAX ->
    generateReports m =
      Some ([Text (endl ++ lit "=== Student Reports ===" ++ endl);
             Text (endl ++ lit "Honor Students (GPA >= 3.5):" ++ endl)] ++
            (honor_line <$>
               filter (fun s => isHonorStudent s = true) (students m)) ++
            match filter (fun s => isHonorStudent s = true) (students m) with
            | [] => [Text (lit "No honor students found." ++ endl)]
            | _ :: _ => []
            end ++
            [Text (endl ++ lit "Class Statistics:" ++ endl);
             Text (lit "Total Students: " ++
                   to_string_nat (vsize (students m)) ++ endl);
             Text (lit "Average GPA: " ++
                   fixed_text 2
                     (SFdiv prec emax (sum_gpas (students m) (double_of_Z 0))
                        (double_of_Z (vsize (students m)))) ++ endl);
             Text (lit "Average Age: " ++
                   fixed_text 1
                     (SFdiv prec emax (double_of_Z (sum_ages (students m)))
                        (double_of_Z (vsize (students m)))) ++ endl)]))).
Proof.
  split.
  - unfold generateReports. now intros ->.
  - intros Hne Hages. unfold generateReports.
    destruct (students m) as [| s v] eqn:E; [contradiction |].
    rewrite honor_loop_filter.
    rewrite (totals_loop_sums (s :: v) (double_of_Z 0) 0 Hages)
      by (vm_compute; split; discriminate).
    rewrite Z.add_0_l. split.
    + intros Hover.
      assert (Eo : (sum_ages (s :: v) <=? INT_MAX) = false) by (apply Z.leb_gt; lia).
      now rewrite Eo.
    + intros Hfits.
      assert (Ei : (sum_ages (s :: v) <=? INT_MAX) = true) by (apply Z.leb_le; lia).
      rewrite Ei. now destruct (filter _ (s :: v)).
Qed.

Lemma generateReports_sections_witness :
  generateReports
    (mkManager [Student_new 1 (lit "Alice") 20 d3_7;
                Student_new 2 (lit "Bob") 31 d2_0] (lit "students.txt")) =
    Some [Text (endl ++ lit "=== Student Reports ===" ++ endl);
          Text (endl ++ lit "Honor Students (GPA >= 3.5):" ++ endl);
          Text (lit "- Alice (GPA: 3.70)" ++ endl);
          Text (endl ++ lit "Class Statistics:" ++ endl);
          Text (lit "Total Students: 2" ++ endl);
          Text (lit "Average GPA: 2.85" ++ endl);
          Text (lit "Average Age: 25.5" ++ endl)] /\
  generateReports
    (mkManager [Student_new 1 (lit "Alice") 2147483647 d3_7;
                Student_new 2 (lit "Bob") 1 d2_0] (lit "students.txt")) = None.
Proof.
  split.
  - etransitivity.
    + apply (proj2 (proj2 (generateReports_sections
               (mkManager [Student_new 1 (lit "Alice") 20 d3_7;
                           Student_new 2 (lit "Bob") 31 d2_0] (lit "students.txt")))
               ltac:(discriminate)
               ltac:(repeat constructor; simpl; lia))).
      vm_compute. discriminate.
    + vm_compute. reflexivity.
  - apply (proj1 (proj2 (generateReports_sections
             (mkManager [Student_new 1 (lit "Alice") 2147483647 d3_7;
                         Student_new 2 (lit "Bob") 1 d2_0] (lit "students.txt")))
             ltac:(discriminate)
             ltac:(repeat constructor; simpl; lia))).
    vm_compute. reflexivity.
Defined.

(** ** What a line can be read as *)

Lemma not_elem_take_le {A} (x : A) (l : list A) (n n' : nat) :
  (n <= n')%nat -> x ∉ take n' l -> x ∉ take n l.
Proof.
  intros Hle Hnot Hin. apply Hnot.
  apply elem_of_take in Hin as (i & Hi & Hlt). apply elem_of_take.
  exists i. split; [exact Hi | lia].
Qed.

(** No [c] in front of the position [find] gives. *)
Lemma find_char_from_prefix (c : ascii) (s : str) (i : Z) :
  0 <= i -> i + len s <= npos ->
  c ∉ take (Z.to_nat (find_char_from c s i - i)) s.
Proof.
  revert i. induction s as [| x s IH]; intros i Hi Hlen.
  - rewrite take_nil. intros H. inversion H.
  - rewrite len_cons in Hlen. pose proof (len_nonneg s) as Hs. cbn [find_char_from].
    destruct (Ascii.eqb x c) eqn:E.
    + rewrite Z.sub_diag. intros H. inversion H.
    + specialize (IH (i + 1) ltac:(lia) ltac:(lia)).
      destruct (find_char_from_bounds c s (i + 1)) as [Hn | Hb].
      * rewrite Hn in *.
        replace (Z.to_nat (npos - i)) with (S (Z.to_nat (npos - (i + 1)))) by lia.
        cbn [take]. apply not_elem_of_cons. split; [| exact IH].
        apply Ascii.eqb_neq in E. congruence.
      * replace (Z.to_nat (find_char_from c s (i + 1) - i))
          with (S (Z.to_nat (find_char_from c s (i + 1) - (i + 1)))) by lia.
        cbn [take]. apply not_elem_of_cons. split; [| exact IH].
        apply Ascii.eqb_neq in E. congruence.
Qed.

(** A part of [s] that starts at [pos] and ends at or before the next [c]
    holds no [c]. *)
Lemma substr_no_char (s t : str) (c : ascii) (pos n : Z) :
  0 <= pos -> len s <= npos ->
  Z.min n (len s - pos) <= find_char s c pos - pos ->
  substr s pos n = Ok t -> c ∉ t.
Proof.
  intros Hpos Hlen Hn. unfold substr.
  destruct (len s <? pos); [discriminate |]. intros H. injection H as <-.
  unfold find_char in Hn. destruct (pos <? len s) eqn:Hlt.
  - apply Z.ltb_lt in Hlt.
    eapply not_elem_take_le; [| apply (find_char_from_prefix c _ pos Hpos)].
    + lia.
    + unfold len in *. rewrite length_drop. lia.
  - apply Z.ltb_ge in Hlt. rewrite drop_ge by (unfold len in *; lia).
    rewrite take_nil. intros H. inversion H.
Qed.

Lemma stoi_int_range (s : str) (v : Z) : stoi s = Ok v -> int_range v.
Proof.
  unfold stoi. destruct (read_sign (skip_space s)) as [neg t].
  destruct (starts_with_digit t); [| discriminate].
  destruct (in_int_range _) eqn:E; [| discriminate].
  intros H. injection H as <-. unfold in_int_range in E.
  apply andb_prop in E as [E1 E2]. apply Z.leb_le in E1. apply Z.leb_le in E2.
  split; assumption.
Qed.

(** The [while] loop adds only courses without a [";"], and stops at a
    position from which there is no [";"] left. *)
Lemma courses_loop_shape (fuel : nat) (cl : str) (start start' : Z) (s s' : Student) :
  len cl < npos ->
  0 <= start <= len cl ->
  courses_loop fuel cl start (find_char cl ";" start) s = (Ok start', s') ->
  0 <= start' /\ find_char cl ";" start' = npos /\
  (Forall (fun c => ";"%char ∉ c) (getCourses s) ->
   Forall (fun c => ";"%char ∉ c) (getCourses s')).
Proof.
  intros Hcl. revert start s.
  induction fuel as [| fuel IH]; intros start s Hstart; [discriminate |].
  cbn [courses_loop].
  destruct (find_char_bounds cl ";" start) as [E | Hb]; [lia | |].
  - rewrite E. change (npos =? npos) with true. cbv iota.
    intros H. injection H as <- <-. repeat split; [lia | exact E | trivial].
  - assert (Hne : (find_char cl ";" start =? npos) = false)
      by (apply Z.eqb_neq; lia).
    rewrite Hne.
    pose proof npos_value. pose proof size_modulus_value.
    rewrite (sz_sub_small (find_char cl ";" start) start) by lia.
    destruct (substr cl start (find_char cl ";" start - start)) as [t | e |] eqn:Ht;
      [| discriminate ..].
    rewrite bind_lift_Ok, bind_modify.
    rewrite (sz_add_small (find_char cl ";" start) 1) by lia.
    intros Hrun. apply IH in Hrun as (Hst0 & Hend & Hall); [| lia].
    split; [exact Hst0 |]. split; [exact Hend |].
    intros Hs. apply Hall. unfold addCourse, assignCourses. simpl.
    apply Forall_app. split; [exact Hs |]. apply Forall_singleton.
    eapply (substr_no_char cl t); [| | | exact Ht]; lia.
Qed.

Lemma course_field_shape (line : str) (pos4 : Z) (s s' : Student) :
  len line < npos ->
  pos4 = npos \/ 0 <= pos4 < len line ->
  course_field line pos4 s = (Ok tt, s') ->
  Forall (fun c => ";"%char ∉ c) (getCourses s) ->
  Forall (fun c => ";"%char ∉ c) (getCourses s').
Proof.
  intros Hlen Hpos. unfold course_field.
  pose proof npos_value. pose proof size_modulus_value.
  destruct (negb (pos4 =? npos) && (pos4 +! 1 <? len line)) eqn:Hc;
    [| intros H'; injection H' as <-; trivial].
  apply andb_prop in Hc as [Hne Hlt]. apply negb_true_iff, Z.eqb_neq in Hne.
  destruct Hpos as [-> | Hpos]; [congruence |].
  rewrite (sz_add_small pos4 1) in * by lia. apply Z.ltb_lt in Hlt.
  destruct (substr_cases line (pos4 + 1) npos) as [(cl & Hcl & Hlcl) | Hthrow];
    [| rewrite Hthrow; discriminate].
  rewrite Hcl, bind_lift_Ok. unfold bind at 1.
  destruct (courses_loop (S (length cl)) cl 0 (find_char cl ";" 0) s)
    as [[st | e |] s1] eqn:Hrun; [| discriminate ..].
  apply courses_loop_shape in Hrun as (Hst0 & Hend & Hall);
    [| lia | pose proof (len_nonneg cl); lia].
  destruct (st <? len cl); [| intros H'; injection H' as <-; exact Hall].
  destruct (substr cl st npos) as [c | e |] eqn:Hsub; [| discriminate ..].
  rewrite bind_lift_Ok. unfold modify. intros H'. injection H' as <-.
  intros Hs. unfold addCourse, assignCourses. simpl.
  apply Forall_app. split; [now apply Hall |]. apply Forall_singleton.
  eapply (substr_no_char cl c); [| | | exact Hsub]; lia.
Qed.

(** X19. Whatever the line, a record that [fromFileString] gives has an id
    and an age in the range of [int], a name without a comma and courses
    without a semicolon: a name with a comma, or a course with a
    semicolon, never comes back from the file as it was. *)
Theorem fromFileString_result_shape (line : str) (s0 r : Student) :
  len line < npos ->
  fromFileString line s0 = (Ok tt, r) ->
  int_range (getId r) /\ (","%char ∉ getName r) /\ int_range (getAge r) /\
  Forall (fun c => ";"%char ∉ c) (getCourses r).
Proof.
  intros Hlen. unfold fromFileString.
  pose proof npos_value as Hnpos. pose proof size_modulus_value as Hmod.
  pose proof (len_nonneg line) as Hl0.
  assert (Hpos1 : find_char line "," 0 = npos \/
                  0 <= find_char line "," 0 < len line)
    by (apply find_char_bounds; lia).
  set (pos1 := find_char line "," 0) in *.
  assert (Hp1 : 0 <= pos1 +! 1 <= len line /\
                (pos1 = npos -> pos1 +! 1 = 0) /\
                (pos1 <> npos -> pos1 +! 1 = pos1 + 1)).
  { destruct Hpos1 as [E | Hb].
    - rewrite E. change (npos +! 1) with 0. repeat split; try lia.
    - rewrite (sz_add_small pos1 1) by lia. repeat split; lia. }
  destruct Hp1 as (Hp1 & Hp1n & Hp1s).
  assert (Hpos2 : find_char line "," (pos1 +! 1) = npos \/
                  pos1 +! 1 <= find_char line "," (pos1 +! 1) < len line)
    by (apply find_char_bounds; lia).
  set (pos2 := find_char line "," (pos1 +! 1)) in *.
  assert (Hpos3 : find_char line "," (pos2 +! 1) = npos \/
                  pos2 +! 1 <= find_char line "," (pos2 +! 1) < len line).
  { apply find_char_bounds. unfold sz_add, wrap. apply Z.mod_pos_bound. lia. }
  set (pos3 := find_char line "," (pos2 +! 1)) in *.
  assert (Hpos4 : find_char line "," (pos3 +! 1) = npos \/
                  pos3 +! 1 <= find_char line "," (pos3 +! 1) < len line).
  { apply find_char_bounds. unfold sz_add, wrap. apply Z.mod_pos_bound. lia. }
  set (pos4 := find_char line "," (pos3 +! 1)) in *.
  assert (H4 : pos4 = npos \/ 0 <= pos4 < len line).
  { destruct Hpos4 as [E | Hb]; [now left | right].
    assert (0 <= pos3 +! 1) by (unfold sz_add, wrap; apply Z.mod_pos_bound; lia).
    lia. }
  fold (course_field line pos4).
  destruct (substr line 0 pos1) as [t0 | e |]; [| discriminate ..].
  rewrite bind_lift_Ok.
  destruct (stoi t0) as [v0 | e |] eqn:E0; [| discriminate ..].
  rewrite bind_lift_Ok, bind_modify.
  destruct (substr line (pos1 +! 1) (pos2 -! pos1 -! 1)) as [t1 | e |] eqn:E1;
    [| discriminate ..].
  rewrite bind_lift_Ok, bind_modify.
  destruct (substr line (pos2 +! 1) (pos3 -! pos2 -! 1)) as [t2 | e |];
    [| discriminate ..].
  rewrite bind_lift_Ok.
  destruct (stoi t2) as [v2 | e |] eqn:E2; [| discriminate ..].
  rewrite bind_lift_Ok, bind_modify.
  destruct (substr line (pos3 +! 1) (pos4 -! pos3 -! 1)) as [t3 | e |];
    [| discriminate ..].
  rewrite bind_lift_Ok.
  destruct (stod t3) as [v3 | e |]; [| discriminate ..].
  rewrite bind_lift_Ok, !bind_modify, fields_assigned.
  intros Hcf.
  destruct (course_field_total line pos4 (mkStudent v0 t1 v2 v3 []) Hlen H4)
    as (r' & Hr' & Hid & Hname & Hage & _).
  rewrite Hcf in Hr'. injection Hr' as <-.
  pose proof (course_field_shape line pos4 _ r Hlen H4 Hcf (Forall_nil_2 _)) as Hcs.
  simpl in Hid, Hname, Hage. rewrite Hid, Hname, Hage.
  split; [exact (stoi_int_range _ _ E0) |].
  split; [| split; [exact (stoi_int_range _ _ E2) | exact Hcs]].
  eapply (substr_no_char line t1 "," (pos1 +! 1)); [lia | lia | | exact E1].
  fold pos2. destruct Hpos2 as [E | Hb]; [rewrite E; lia |].
  destruct Hpos1 as [En | Hb1].
  - exfalso. unfold pos2 in Hb. rewrite (Hp1n En) in Hb. fold pos1 in Hb. lia.
  - rewrite (Hp1s ltac:(lia)) in *.
    rewrite (sz_sub_small pos2 pos1), (sz_sub_small (pos2 - pos1) 1) by lia. lia.
Qed.

Lemma fromFileString_result_shape_witness :
  int_range (getId (mkStudent 1 (lit "Bob") 20 d3_5 [lit "Math"; lit "Art"])) /\
  (","%char ∉ getName (mkStudent 1 (lit "Bob") 20 d3_5 [lit "Math"; lit "Art"])) /\
  int_range (getAge (mkStudent 1 (lit "Bob") 20 d3_5 [lit "Math"; lit "Art"])) /\
  Forall (fun c => ";"%char ∉ c)
    (getCourses (mkStudent 1 (lit "Bob") 20 d3_5 [lit "Math"; lit "Art"])).
Proof.
  apply (fromFileString_result_shape (lit "1,Bob,20,3.5,Math;Art") Student_default
           (mkStudent 1 (lit "Bob") 20 d3_5 [lit "Math"; lit "Art"])).
  - vm_compute. reflexivity.
  - vm_compute. reflexivity.
Defined.

(** ** Records as they are typed in *)

Lemma last_not_empty (cs : list str) :
  Forall (fun c => c ≠ []) cs -> last cs ≠ Some [].
Proof.
  induction 1 as [| c cs Hc Hcs IH]; [discriminate |].
  destruct cs as [| c' cs]; [| exact IH].
  simpl. intros H. injection H as ->. now apply Hc.
Qed.

(** X20. A record made of what is typed in (an id and an age that are
    [int]s, a name without comma or end of line, a gpa with two decimals
    between 0.00 and 4.00, then courses that are not empty and hold no
    comma, semicolon or end of line) is held by the file without loss: its
    line reads back as the record; and two such records with the same line
    are the same record. *)
Theorem typed_record_persists (id : Z) (name : str) (age k : Z) (cs : list str) :
  int_range id -> int_range age -> 0 <= k <= 400 ->
  ","%char ∉ name -> "010"%char ∉ name ->
  Forall clean_course cs ->
  vsize cs < size_modulus ->
  len (toFileString (typed_record id name age k cs)) < npos ->
  persistable (typed_record id name age k cs) /\
  fromFileString (toFileString (typed_record id name age k cs)) Student_default =
    (Ok tt, typed_record id name age k cs) /\
  (forall r, persistable r ->
     toFileString r = toFileString (typed_record id name age k cs) ->
     r = typed_record id name age k cs).
Proof.
  intros Hid Hage Hk Hcomma Hnl Hcs Hsize Hlen.
  assert (Hrec : typed_record id name age k cs =
                 mkStudent id name age (hundredths k) cs).
  { unfold typed_record. now rewrite foldl_addCourse. }
  rewrite Hrec in *.
  assert (Hp : persistable (mkStudent id name age (hundredths k) cs)).
  { unfold persistable, representable, gpa_prints_exactly. simpl.
    split; [repeat split; try apply Hid; try apply Hage; assumption |].
    split; [exact Hcomma |]. split; [exact Hnl |]. split; [| split].
    - eapply Forall_impl; [exact Hcs |]. intros c (_ & H1 & H2 & H3). now repeat split.
    - apply last_not_empty. eapply Forall_impl; [exact Hcs |]. now intros c (H & _).
    - apply hundredths_read_back, Hk. }
  assert (Hread : forall r, persistable r ->
            fromFileString (toFileString r) Student_default = (Ok tt, r)).
  { intros r (Hrep & Hc & _ & Hcourses & Hlast & Hgpa).
    apply fromFileString_toFileString; try assumption.
    eapply Forall_impl; [exact Hcourses |]. now intros c (H1 & H2 & _). }
  split; [exact Hp |]. split; [now apply Hread |].
  intros r Hr Hline. pose proof (Hread r Hr) as H1. rewrite Hline in H1.
  rewrite (Hread _ Hp) in H1. now injection H1.
Qed.

Lemma typed_record_persists_witness :
  fromFileString
    (toFileString (typed_record 7 (lit "Ada Lovelace") 36 385 [lit "Math"; lit "Art"]))
    Student_default =
  (Ok tt, typed_record 7 (lit "Ada Lovelace") 36 385 [lit "Math"; lit "Art"]).
Proof.
  apply (typed_record_persists 7 (lit "Ada Lovelace") 36 385 [lit "Math"; lit "Art"]).
  - vm_compute. split; discriminate.
  - vm_compute. split; discriminate.
  - lia.
  - apply not_in_lit. reflexivity.
  - apply not_in_lit. reflexivity.
  - repeat apply Forall_cons_2; try apply Forall_nil_2;
      (split; [discriminate |]); repeat split; apply not_in_lit; reflexivity.
  - reflexivity.
  - vm_compute. reflexivity.
Defined.
